(** * The mock weight-oracle daemon ([node/weightoracle/testdaemon/daemon.py])

    A shallow embedding of the request-handling engine of [WeightDaemon]
    and the properties its specification states about it.

    Conventions of the embedding.
    - A Python [str] is the list of its Unicode code points ([pystr]); a
      Python [bytes] is a list of [byte]s; a Python [int] is a [Z].
    - A value produced by [json.loads] is a [json]; a [dict] with string
      keys that only appears as a request or a response is the list of
      its items, in insertion order.
    - The two weight tables ([dict[str, int]]) are [gmap]s.
    - Exceptions are values of type [exn]; code that may raise lives in
      the state-and-exception monad [M].  Every member of [exn] is a
      subclass of Python's [Exception].
    - Of the library functions the daemon calls, [base64.b64encode],
      UTF-8 decoding and encoding, [str] of an integer and [json.dumps]
      are written out; [json.loads] and the [repr] of floats and
      containers are parameters of the handlers.
    - A socket is the list of what its [recv] calls will return, the list
      of payloads sent and a closed flag; [sys.stderr] is the list of the
      errors printed to it.
    - The daemon's lock is not executed but traced: every access to the
      shared mutable attributes and every acquire/release of
      [self._lock] is appended to the [trace] of the state.
    - [time.sleep(self.latency)] has no effect on anything modelled here
      and is left out. *)

From Stdlib Require Import ZArith NArith List Ascii String Strings.Byte.
From Stdlib Require Import DecimalString DecimalPos DecimalZ Floats.SpecFloat Lia.
From stdpp Require Import base option list gmap strings.

Set Warnings "-register-all".
Open Scope Z_scope.

(** ** Python strings, bytes and integers *)

Abbreviation pystr := (list N).
Abbreviation bytes := (list byte).

(** A string literal of the source, as code points. *)
Definition lit (s : string) : pystr := N_of_ascii <$> list_ascii_of_string s.

(** A bytes literal of the source. *)
Definition blit (s : string) : bytes := list_byte_of_string s.

(** [str(n)] for an [int]: the decimal digits, with a leading minus sign
    for negative numbers. *)
Definition str_int (n : Z) : pystr := lit (NilZero.string_of_int (Z.to_int n)).

(** The string of a [pystr] whose code points are below 256. *)
Definition unlit (s : pystr) : string := string_of_list_ascii (ascii_of_N <$> s).

(** [int(s)] on the strings that spell a decimal integer; it says what a
    decimal string denotes. *)
Definition int_of_str (s : pystr) : option Z :=
  if forallb (fun c => (c <? 256)%N) s
  then Z.of_int <$> NilZero.int_of_string (unlit s)
  else None.

(** ** Exceptions *)

Inductive exn : Type :=
| JSONDecodeError (msg : pystr)   (* [str(e)] is carried along *)
| UnicodeDecodeError
| UnicodeEncodeError
| AttributeError
| TypeError
| KeyError
| RecursionError
| OSError.

Inductive result (A : Type) : Type :=
| Ok (a : A)
| Raise (e : exn).
Arguments Ok {A} a.
Arguments Raise {A} e.

Definition result_map {A B} (f : A -> B) (r : result A) : result B :=
  match r with
  | Ok a => Ok (f a)
  | Raise e => Raise e
  end.

Definition result_bind {A B} (r : result A) (f : A -> result B) : result B :=
  match r with
  | Ok a => f a
  | Raise e => Raise e
  end.

(** ** JSON values, as [json.loads] builds them *)

Inductive json : Type :=
| JNull                                   (* None *)
| JBool (b : bool)                        (* True / False *)
| JInt (n : Z)                            (* int *)
| JFloat (f : spec_float)                 (* float *)
| JStr (s : pystr)                        (* str *)
| JArr (items : list json)                (* list *)
| JObj (fields : list (pystr * json)).    (* dict *)

(** Python's truth value of a JSON value ([bool(v)], what [not v] negates). *)
Definition truthy (v : json) : bool :=
  match v with
  | JNull => false
  | JBool b => b
  | JInt n => negb (n =? 0)
  | JFloat f => match f with S754_zero _ => false | _ => true end
  | JStr s => match s with [] => false | _ => true end
  | JArr items => match items with [] => false | _ => true end
  | JObj fields => match fields with [] => false | _ => true end
  end.

(** [v == s] for a string literal [s]: only an equal [str] compares equal. *)
Definition eq_str (v : json) (s : pystr) : bool :=
  match v with
  | JStr t => bool_decide (t = s)
  | _ => false
  end.

(** The value stored under a key in the items of a dict (the keys of a
    dict are distinct). *)
Fixpoint assoc (k : pystr) (fields : list (pystr * json)) : option json :=
  match fields with
  | [] => None
  | (k', v) :: rest => if bool_decide (k' = k) then Some v else assoc k rest
  end.

(** [request.get(key, dflt)].  Only a dict has a [get] method. *)
Definition dict_get (request : json) (key : pystr) (dflt : json) : result json :=
  match request with
  | JObj fields => Ok (default dflt (assoc key fields))
  | _ => Raise AttributeError
  end.

Section Formatting.
Variable py_repr : json -> pystr.

(** [str(v)], which is what an f-string substitutes for [{v}].  The
    [repr] of a float, a list or a dict is left to the runtime. *)
Definition py_str (v : json) : pystr :=
  match v with
  | JNull => lit "None"
  | JBool true => lit "True"
  | JBool false => lit "False"
  | JInt n => str_int n
  | JStr s => s
  | JFloat _ | JArr _ | JObj _ => py_repr v
  end.
End Formatting.

(** [ord(c)]: defined on a string of length one. *)
Definition ord (c : json) : result Z :=
  match c with
  | JStr [cp] => Ok (Z.of_N cp)
  | _ => Raise TypeError
  end.

(** The values [for c in v] yields; numbers, booleans and [None] are not
    iterable. *)
Definition iterate (v : json) : result (list json) :=
  match v with
  | JStr s => Ok ((fun cp => JStr [cp]) <$> s)
  | JArr items => Ok items
  | JObj fields => Ok ((fun kv => JStr kv.1) <$> fields)
  | JNull | JBool _ | JInt _ | JFloat _ => Raise TypeError
  end.

(** [sum(ord(c) for c in v)]. *)
Fixpoint sum_from (acc : Z) (cs : list json) : result Z :=
  match cs with
  | [] => Ok acc
  | c :: rest => result_bind (ord c) (fun n => sum_from (acc + n) rest)
  end.

Definition sum_ord (v : json) : result Z :=
  result_bind (iterate v) (sum_from 0).

(** [k in table] and [table[k]] for a [dict[str, int]]: a list or a dict
    is unhashable, any other non-string is simply not a key. *)
Definition table_contains (table : gmap pystr Z) (k : json) : result bool :=
  match k with
  | JStr s => Ok (bool_decide (is_Some (table !! s)))
  | JArr _ | JObj _ => Raise TypeError
  | JNull | JBool _ | JInt _ | JFloat _ => Ok false
  end.

Definition table_getitem (table : gmap pystr Z) (k : json) : result Z :=
  match k with
  | JStr s => match table !! s with Some w => Ok w | None => Raise KeyError end
  | JArr _ | JObj _ => Raise TypeError
  | JNull | JBool _ | JInt _ | JFloat _ => Raise KeyError
  end.

(** ** Library codecs the daemon calls *)

(** [base64.b64encode]: three bytes become four characters of the
    standard alphabet, the last group is padded with [=]. *)
Definition b64_alphabet : bytes :=
  blit "ABCDEFGHIJKLMNOPQRSTUVWXYZabcdefghijklmnopqrstuvwxyz0123456789+/".

Definition b64_pad : byte := "="%byte.

Definition b64_char (i : N) : byte := nth (N.to_nat i) b64_alphabet b64_pad.

Fixpoint b64encode (s : bytes) : bytes :=
  match s with
  | [] => []
  | [a] =>
      let a := Byte.to_N a in
      [b64_char (a / 4); b64_char (a mod 4 * 16); b64_pad; b64_pad]
  | [a; b] =>
      let a := Byte.to_N a in
      let b := Byte.to_N b in
      [b64_char (a / 4); b64_char (a mod 4 * 16 + b / 16);
       b64_char (b mod 16 * 4); b64_pad]
  | a :: b :: c :: rest =>
      let a := Byte.to_N a in
      let b := Byte.to_N b in
      let c := Byte.to_N c in
      b64_char (a / 4) :: b64_char (a mod 4 * 16 + b / 16)
        :: b64_char (b mod 16 * 4 + c / 64) :: b64_char (c mod 64)
        :: b64encode rest
  end%N.

(** [.decode("ascii")]. *)
Fixpoint decode_ascii (s : bytes) : result pystr :=
  match s with
  | [] => Ok []
  | b :: rest =>
      if (Byte.to_N b <? 128)%N
      then result_map (cons (Byte.to_N b)) (decode_ascii rest)
      else Raise UnicodeDecodeError
  end.

(** [base64.b64decode] on a string, the inverse direction: the position
    of each character in the alphabet, four characters giving three
    bytes, padding allowed in the last group only. *)
Fixpoint index_from (i : N) (c : N) (alphabet : bytes) : option N :=
  match alphabet with
  | [] => None
  | a :: rest => if (Byte.to_N a =? c)%N then Some i else index_from (N.succ i) c rest
  end.

Definition b64_index (c : N) : option N := index_from 0 c b64_alphabet.

Definition is_pad (c : N) : bool := (c =? Byte.to_N b64_pad)%N.

Fixpoint b64decode (s : pystr) : option bytes :=
  match s with
  | [] => Some []
  | c0 :: c1 :: c2 :: c3 :: rest =>
      i0 ← b64_index c0;
      i1 ← b64_index c1;
      if is_pad c2 then
        if is_pad c3 && bool_decide (rest = []) then
          b0 ← Byte.of_N (i0 * 4 + i1 / 16);
          Some [b0]
        else None
      else
        i2 ← b64_index c2;
        if is_pad c3 then
          if bool_decide (rest = []) then
            b0 ← Byte.of_N (i0 * 4 + i1 / 16);
            b1 ← Byte.of_N (i1 mod 16 * 16 + i2 / 4);
            Some [b0; b1]
          else None
        else
          i3 ← b64_index c3;
          b0 ← Byte.of_N (i0 * 4 + i1 / 16);
          b1 ← Byte.of_N (i1 mod 16 * 16 + i2 / 4);
          b2 ← Byte.of_N (i2 mod 4 * 64 + i3);
          tail ← b64decode rest;
          Some (b0 :: b1 :: b2 :: tail)
  | _ => None
  end%N.

(** [data.decode("utf-8")], strict: one to four bytes per code point;
    overlong forms, surrogates and values above U+10FFFF are errors. *)
Definition continuation (b : byte) : option N :=
  let n := Byte.to_N b in
  if ((128 <=? n) && (n <=? 191))%N then Some (n - 128)%N else None.

Definition scalar (lo cp : N) : bool :=
  ((lo <=? cp) && (cp <=? 1114111) && negb ((55296 <=? cp) && (cp <=? 57343)))%N.

Fixpoint utf8_decode (s : bytes) : result pystr :=
  match s with
  | [] => Ok []
  | b0 :: r0 =>
      let n0 := Byte.to_N b0 in
      if (n0 <? 128)%N then result_map (cons n0) (utf8_decode r0)
      else if (n0 <? 192)%N then Raise UnicodeDecodeError
      else if (n0 <? 224)%N then
        match r0 with
        | b1 :: r1 =>
            match continuation b1 with
            | Some c1 =>
                let cp := ((n0 - 192) * 64 + c1)%N in
                if scalar 128 cp then result_map (cons cp) (utf8_decode r1)
                else Raise UnicodeDecodeError
            | None => Raise UnicodeDecodeError
            end
        | _ => Raise UnicodeDecodeError
        end
      else if (n0 <? 240)%N then
        match r0 with
        | b1 :: b2 :: r2 =>
            match continuation b1, continuation b2 with
            | Some c1, Some c2 =>
                let cp := ((n0 - 224) * 4096 + c1 * 64 + c2)%N in
                if scalar 2048 cp then result_map (cons cp) (utf8_decode r2)
                else Raise UnicodeDecodeError
            | _, _ => Raise UnicodeDecodeError
            end
        | _ => Raise UnicodeDecodeError
        end
      else if (n0 <? 248)%N then
        match r0 with
        | b1 :: b2 :: b3 :: r3 =>
            match continuation b1, continuation b2, continuation b3 with
            | Some c1, Some c2, Some c3 =>
                let cp := ((n0 - 240) * 262144 + c1 * 4096 + c2 * 64 + c3)%N in
                if scalar 65536 cp then result_map (cons cp) (utf8_decode r3)
                else Raise UnicodeDecodeError
            | _, _, _ => Raise UnicodeDecodeError
            end
        | _ => Raise UnicodeDecodeError
        end
      else Raise UnicodeDecodeError
  end.

(** [s.encode("utf-8")]: a surrogate cannot be encoded. *)
Definition byte_of_N (n : N) : byte := default x00 (Byte.of_N n).

Definition encode_code_point (cp : N) : result bytes :=
  (if cp <? 128 then Ok [byte_of_N cp]
   else if cp <? 2048 then
     Ok [byte_of_N (192 + cp / 64); byte_of_N (128 + cp mod 64)]
   else if (55296 <=? cp) && (cp <=? 57343) then Raise UnicodeEncodeError
   else if cp <? 65536 then
     Ok [byte_of_N (224 + cp / 4096); byte_of_N (128 + cp / 64 mod 64);
         byte_of_N (128 + cp mod 64)]
   else if cp <? 1114112 then
     Ok [byte_of_N (240 + cp / 262144); byte_of_N (128 + cp / 4096 mod 64);
         byte_of_N (128 + cp / 64 mod 64); byte_of_N (128 + cp mod 64)]
   else Raise UnicodeEncodeError)%N.

Fixpoint utf8_encode (s : pystr) : result bytes :=
  match s with
  | [] => Ok []
  | cp :: rest =>
      result_bind (encode_code_point cp)
        (fun head => result_map (app head) (utf8_encode rest))
  end.

(** [json.dumps] with its default options: [ensure_ascii], separators
    comma-space and colon-space, no indentation. *)
Definition hex_digit (n : N) : N := (if n <? 10 then 48 + n else 87 + n)%N.

(** The six characters of a backslash-u escape, with four lower-case
    hexadecimal digits. *)
Definition unicode_escape (n : N) : pystr :=
  [92; 117; hex_digit (n / 4096 mod 16); hex_digit (n / 256 mod 16);
   hex_digit (n / 16 mod 16); hex_digit (n mod 16)]%N.

Definition escape_char (cp : N) : pystr :=
  (if cp =? 92 then [92; 92]
   else if cp =? 34 then [92; 34]
   else if cp =? 8 then [92; 98]
   else if cp =? 12 then [92; 102]
   else if cp =? 10 then [92; 110]
   else if cp =? 13 then [92; 114]
   else if cp =? 9 then [92; 116]
   else if (32 <=? cp) && (cp <=? 126) then [cp]
   else if cp <? 65536 then unicode_escape cp
   else
     let n := cp - 65536 in
     unicode_escape (N.lor 55296 (N.land (N.shiftr n 10) 1023))
       ++ unicode_escape (N.lor 56320 (N.land n 1023)))%N.

(** A string between quotation marks, every character outside the
    printable ASCII range escaped. *)
Definition encode_basestring_ascii (s : pystr) : pystr :=
  [34%N] ++ flat_map escape_char s ++ [34%N].

Fixpoint join (separator : pystr) (parts : list pystr) : pystr :=
  match parts with
  | [] => []
  | [part] => part
  | part :: rest => part ++ separator ++ join separator rest
  end.

Section Serialising.
Variable py_repr : json -> pystr.

Fixpoint json_dumps (v : json) : pystr :=
  match v with
  | JNull => lit "null"
  | JBool true => lit "true"
  | JBool false => lit "false"
  | JInt n => str_int n
  | JFloat S754_nan => lit "NaN"
  | JFloat (S754_infinity false) => lit "Infinity"
  | JFloat (S754_infinity true) => lit "-Infinity"
  | JFloat f => py_repr (JFloat f)
  | JStr s => encode_basestring_ascii s
  | JArr items =>
      lit "[" ++ join (lit ", ") (list_fmap _ _ json_dumps items) ++ lit "]"
  | JObj fields =>
      lit "{"
        ++ join (lit ", ")
             (list_fmap _ _
                (fun kv => encode_basestring_ascii kv.1 ++ lit ": " ++ json_dumps kv.2)
                fields)
        ++ lit "}"
  end.
End Serialising.

(** ** The daemon, a client socket, and the state the code runs in *)

(** The attributes of [WeightDaemon] that request handling reads or
    writes.  ([port], [latency], [running] and [server_socket] belong to
    the acceptor.) *)
Record WeightDaemon : Type := {
  genesis_hash : bytes;
  protocol_version : pystr;
  algorithm_version : pystr;
  weight_table : gmap pystr Z;
  total_weight : Z;
  default_weight : option Z;
  address_weights : gmap pystr Z
}.

(** A connected socket, seen from the handler.
    - [inbox]: what the successive calls of [recv(4096)] will return; once
      the list is used up the peer has closed and [recv] returns the empty bytes.
    - [send_error]: the exception [sendall] raises, if it fails.
    - [sent]: the payloads of the successful calls of [sendall].
    - [closed]: whether [close()] has been called. *)
Record socket : Type := {
  inbox : list (result bytes);
  send_error : option exn;
  sent : list bytes;
  closed : bool
}.

(** The attributes shared between connection handlers and mutable at run
    time, and the events of the lock discipline. *)
Inductive shared : Type := SharedWeightTable | SharedAddressWeights | SharedTotalWeight.

Inductive event : Type :=
| Acquire                (* entering [with self._lock] *)
| Release                (* leaving it *)
| Read (x : shared)
| Write (x : shared).

(** Lines printed to [sys.stderr]. *)
Inductive log_line : Type :=
| ErrorHandlingClient (e : exn)
| ErrorSendingResponse (e : exn).

Record state : Type := {
  self : WeightDaemon;
  client_socket : socket;
  stderr : list log_line;
  trace : list event
}.

Definition set_self (f : WeightDaemon -> WeightDaemon) (st : state) : state :=
  {| self := f (self st); client_socket := client_socket st;
     stderr := stderr st; trace := trace st |}.

Definition set_client_socket (f : socket -> socket) (st : state) : state :=
  {| self := self st; client_socket := f (client_socket st);
     stderr := stderr st; trace := trace st |}.

Definition print_stderr (l : log_line) (st : state) : state :=
  {| self := self st; client_socket := client_socket st;
     stderr := stderr st ++ [l]; trace := trace st |}.

Definition record_event (e : event) (st : state) : state :=
  {| self := self st; client_socket := client_socket st;
     stderr := stderr st; trace := trace st ++ [e] |}.

(** ** The monad: state passing with exceptions *)

Definition M (A : Type) : Type := state -> result A * state.

#[export] Instance M_ret : MRet M := fun A a st => (Ok a, st).

#[export] Instance M_bind : MBind M := fun A B f m st =>
  match m st with
  | (Ok a, st') => f a st'
  | (Raise e, st') => (Raise e, st')
  end.

Definition raise {A} (e : exn) : M A := fun st => (Raise e, st).

Definition lift {A} (r : result A) : M A := fun st => (r, st).

Definition gets {A} (f : state -> A) : M A := fun st => (Ok (f st), st).

Definition modify (f : state -> state) : M unit := fun st => (Ok tt, f st).

(** [try: m / except Exception as e: h e]. *)
Definition try_except {A} (m : M A) (h : exn -> M A) : M A := fun st =>
  match m st with
  | (Ok a, st') => (Ok a, st')
  | (Raise e, st') => h e st'
  end.

(** [try: m / finally: f].  An exception of [f] replaces the outcome of [m]. *)
Definition try_finally {A} (m : M A) (f : M unit) : M A := fun st =>
  match m st with
  | (r, st') =>
      match f st' with
      | (Ok _, st'') => (r, st'')
      | (Raise e, st'') => (Raise e, st'')
      end
  end.

(** [with self._lock: m]. *)
Definition with_lock {A} (m : M A) : M A :=
  modify (record_event Acquire);; try_finally m (modify (record_event Release)).

(** Reading a shared attribute of [self]. *)
Definition read {A} (x : shared) (f : WeightDaemon -> A) : M A :=
  modify (record_event (Read x));; gets (fun st => f (self st)).

(** Outcome and final state of a run. *)
Definition outcome {A} (m : M A) (st : state) : result A := (m st).1.
Definition final {A} (m : M A) (st : state) : state := (m st).2.

(** ** Primitive operations on the client socket *)

Definition with_inbox (rest : list (result bytes)) (s : socket) : socket :=
  {| inbox := rest; send_error := send_error s; sent := sent s; closed := closed s |}.

Definition with_sent (payload : bytes) (s : socket) : socket :=
  {| inbox := inbox s; send_error := send_error s;
     sent := sent s ++ [payload]; closed := closed s |}.

Definition with_closed (s : socket) : socket :=
  {| inbox := inbox s; send_error := send_error s; sent := sent s; closed := true |}.

(** Whether [data] contains the byte of a closing brace. *)
Definition has_brace (data : bytes) : bool := existsb (Byte.eqb "}"%byte) data.

(** The read loop of [_handle_client], run on the outcomes of the
    successive [recv] calls: an empty chunk ends the loop, any other
    chunk is appended to [data], and the loop ends as soon as [data]
    holds a closing brace.  Returns [data] (or the exception of a failed
    [recv]) and the outcomes not consumed. *)
Fixpoint read_loop (incoming : list (result bytes)) (data : bytes)
  : result bytes * list (result bytes) :=
  match incoming with
  | [] => (Ok data, [])
  | Raise e :: rest => (Raise e, rest)
  | Ok chunk :: rest =>
      match chunk with
      | [] => (Ok data, rest)
      | _ :: _ =>
          let data := data ++ chunk in
          if has_brace data then (Ok data, rest) else read_loop rest data
      end
  end.

Definition read_data : M bytes := fun st =>
  let (r, rest) := read_loop (inbox (client_socket st)) [] in
  (r, set_client_socket (with_inbox rest) st).

Definition sendall (payload : bytes) : M unit := fun st =>
  match send_error (client_socket st) with
  | Some e => (Raise e, st)
  | None => (Ok tt, set_client_socket (with_sent payload) st)
  end.

Definition close : M unit := modify (set_client_socket with_closed).

(** ** The handlers of [WeightDaemon] *)

Definition error_response (message code : pystr) : json :=
  JObj [(lit "error", JStr message); (lit "code", JStr code)].

Definition weight_response (weight : Z) : json :=
  JObj [(lit "weight", JStr (str_int weight))].

Definition total_weight_response (weight : Z) : json :=
  JObj [(lit "total_weight", JStr (str_int weight))].

Definition bad_request : pystr := lit "bad_request".

Section Daemon.
(** [json.loads] and the [repr] of floats and containers come from the
    Python runtime. *)
Variable json_loads : pystr -> result json.
Variable py_repr : json -> pystr.

Definition _send_response (response : json) : M unit :=
  try_except
    (let response_json := json_dumps py_repr response ++ [10%N] in
     payload ← lift (utf8_encode response_json);
     sendall payload)
    (fun e => modify (print_stderr (ErrorSendingResponse e))).

Definition _handle_ping : M json :=
  mret (JObj [(lit "pong", JBool true)]).

Definition _handle_identity : M json :=
  hash ← gets (fun st => genesis_hash (self st));
  encoded ← lift (decode_ascii (b64encode hash));
  protocol ← gets (fun st => protocol_version (self st));
  algorithm ← gets (fun st => algorithm_version (self st));
  mret (JObj [(lit "genesis_hash", JStr encoded);
              (lit "protocol_version", JStr protocol);
              (lit "algorithm_version", JStr algorithm)]).

Definition composite_key (address selection_id balance_round : json) : pystr :=
  py_str py_repr address ++ lit ":" ++ py_str py_repr selection_id
    ++ lit ":" ++ py_str py_repr balance_round.

(** The body of [with self._lock] in [_handle_weight]: [inl] is the
    [return] from inside the block, [inr] the [weight] it leaves. *)
Definition lookup_weight (address selection_id balance_round : json) : M (json + Z) :=
  known ← read SharedAddressWeights address_weights;
  hit ← lift (table_contains known address);
  if hit : bool then
    known ← read SharedAddressWeights address_weights;
    weight ← lift (table_getitem known address);
    mret (inl (weight_response weight))
  else
    let key := composite_key address selection_id balance_round in
    table ← read SharedWeightTable weight_table;
    hit ← lift (table_contains table (JStr key));
    if hit : bool then
      table ← read SharedWeightTable weight_table;
      weight ← lift (table_getitem table (JStr key));
      mret (inr weight)
    else
      total ← lift (sum_ord address);
      mret (inr (total mod 1000000)).

(** [_handle_weight] once the three fields have passed validation. *)
Definition resolve_weight (address selection_id balance_round : json) : M json :=
  override ← gets (fun st => default_weight (self st));
  match override with
  | Some weight => mret (weight_response weight)
  | None =>
      found ← with_lock (lookup_weight address selection_id balance_round);
      match found with
      | inl response => mret response
      | inr weight => mret (weight_response weight)
      end
  end.

Definition _handle_weight (request : json) : M json :=
  address ← lift (dict_get request (lit "address") JNull);
  selection_id ← lift (dict_get request (lit "selection_id") JNull);
  balance_round ← lift (dict_get request (lit "balance_round") JNull);
  if negb (truthy address) then
    mret (error_response (lit "Missing address field") bad_request)
  else if negb (truthy selection_id) then
    mret (error_response (lit "Missing selection_id field") bad_request)
  else if negb (truthy balance_round) then
    mret (error_response (lit "Missing balance_round field") bad_request)
  else resolve_weight address selection_id balance_round.

Definition _handle_total_weight (request : json) : M json :=
  balance_round ← lift (dict_get request (lit "balance_round") JNull);
  vote_round ← lift (dict_get request (lit "vote_round") JNull);
  if negb (truthy balance_round) then
    mret (error_response (lit "Missing balance_round field") bad_request)
  else if negb (truthy vote_round) then
    mret (error_response (lit "Missing vote_round field") bad_request)
  else
    total ← read SharedTotalWeight total_weight;
    mret (total_weight_response total).

Definition _handle_request (request : json) : M json :=
  req_type ← lift (dict_get request (lit "type") (JStr (lit "")));
  if eq_str req_type (lit "ping") then _handle_ping
  else if eq_str req_type (lit "identity") then _handle_identity
  else if eq_str req_type (lit "weight") then _handle_weight request
  else if eq_str req_type (lit "total_weight") then _handle_total_weight request
  else mret (error_response (lit "Unknown request type: " ++ py_str py_repr req_type)
                            (lit "unsupported")).

(** [try: m / except json.JSONDecodeError as e]: [inr (str e)] when
    that exception was raised; any other exception passes through. *)
Definition except_JSONDecodeError {A} (m : M A) : M (A + pystr) := fun st =>
  match m st with
  | (Ok a, st') => (Ok (inl a), st')
  | (Raise (JSONDecodeError msg), st') => (Ok (inr msg), st')
  | (Raise e, st') => (Raise e, st')
  end.

Definition _handle_client : M unit :=
  try_finally
    (try_except
       (data ← read_data;
        match data with
        | [] => mret tt
        | _ :: _ =>
            parsed ← except_JSONDecodeError
                       (text ← lift (utf8_decode data); lift (json_loads text));
            match parsed with
            | inr e =>
                _send_response
                  (error_response (lit "Invalid JSON: " ++ e) bad_request)
            | inl request =>
                response ← _handle_request request;
                _send_response response
            end
        end)
       (fun e => modify (print_stderr (ErrorHandlingClient e))))
    close.

(** The administrative mutators. *)
Definition with_weight_table (f : gmap pystr Z -> gmap pystr Z) (d : WeightDaemon)
  : WeightDaemon :=
  {| genesis_hash := genesis_hash d; protocol_version := protocol_version d;
     algorithm_version := algorithm_version d; weight_table := f (weight_table d);
     total_weight := total_weight d; default_weight := default_weight d;
     address_weights := address_weights d |}.

Definition with_total_weight (w : Z) (d : WeightDaemon) : WeightDaemon :=
  {| genesis_hash := genesis_hash d; protocol_version := protocol_version d;
     algorithm_version := algorithm_version d; weight_table := weight_table d;
     total_weight := w; default_weight := default_weight d;
     address_weights := address_weights d |}.

Definition set_weight (address selection_id balance_round : pystr) (weight : Z) : M unit :=
  let key := address ++ lit ":" ++ selection_id ++ lit ":" ++ balance_round in
  with_lock
    (modify (record_event (Write SharedWeightTable));;
     modify (set_self (with_weight_table <[key := weight]>))).

Definition set_total_weight (weight : Z) : M unit :=
  with_lock
    (modify (record_event (Write SharedTotalWeight));;
     modify (set_self (with_total_weight weight))).
End Daemon.

(** ** Vocabulary of the specification *)

(** A computation that leaves the daemon, the socket and the log as they
    are: it may only extend the trace. *)
Definition frame {A} (m : M A) : Prop :=
  forall st,
    self (final m st) = self st
    /\ client_socket (final m st) = client_socket st
    /\ stderr (final m st) = stderr st.

(** The value [request.get(name)] of a field of a request object. *)
Definition field (fields : list (pystr * json)) (name : pystr) : json :=
  default JNull (assoc name fields).

(** A field that is missing, null or the empty string. *)
Definition absent (fields : list (pystr * json)) (name : pystr) : Prop :=
  assoc name fields = None \/ assoc name fields = Some JNull
  \/ assoc name fields = Some (JStr []).

(** A request object of the given type. *)
Definition has_type (fields : list (pystr * json)) (type : string) : Prop :=
  assoc (lit "type") fields = Some (JStr (lit type)).

Definition missing_field (name : string) : json :=
  error_response (lit "Missing " ++ lit name ++ lit " field") bad_request.

(** The value [request.get("type", "")] of a request object, and the
    request types the daemon knows. *)
Definition request_type (fields : list (pystr * json)) : json :=
  default (JStr (lit "")) (assoc (lit "type") fields).

Definition known_types : list string := ["ping"; "identity"; "weight"; "total_weight"]%string.

(** The sum of the code points of a string. *)
Definition code_point_sum (s : pystr) : Z := foldr (fun cp acc => Z.of_N cp + acc) 0 s.

(** The weight the specification prescribes: the override, else the
    entry of the address table, else the entry of the weight table under
    the composite key, else the fallback. *)
Definition spec_weight (d : WeightDaemon) (address selection_id balance_round : pystr) : Z :=
  match default_weight d with
  | Some w => w
  | None =>
      match address_weights d !! address with
      | Some w => w
      | None =>
          match weight_table d
                !! (address ++ lit ":" ++ selection_id ++ lit ":" ++ balance_round) with
          | Some w => w
          | None => code_point_sum address mod 1000000
          end
      end
  end.

(** The points at which the read loop, entered with [data] in the
    buffer, may stop after [k] further chunks: the buffer holds a closing
    brace, or the next [recv] finds the peer closed (no further chunk, or
    an empty one). *)
Definition stop_point (data : bytes) (chunks : list bytes) (k : nat) : Prop :=
  has_brace (data ++ List.concat (take k chunks)) = true
  \/ chunks !! k = None \/ chunks !! k = Some [].

(** The line a response travels as: its [json.dumps] text and a newline,
    one byte per character. *)
Definition wire (py_repr : json -> pystr) (response : json) : bytes :=
  byte_of_N <$> (json_dumps py_repr response ++ [10%N]).

Definition is_ascii (s : pystr) : bool := forallb (fun cp => (cp <? 128)%N) s.

(** The responses the handlers build: an object whose values are strings
    or booleans. *)
Definition flat (response : json) : bool :=
  match response with
  | JObj fields =>
      forallb (fun kv => match kv.2 with JStr _ | JBool _ => true | _ => false end)
        fields
  | _ => false
  end.

(** What a computation returns when it returns. *)
Definition returns {A} (P : A -> Prop) (m : M A) : Prop :=
  forall st a, outcome m st = Ok a -> P a.

(** A request object all of whose values are strings, as the wire
    protocol prescribes. *)
Definition string_valued (fields : list (pystr * json)) : Prop :=
  forall name v, assoc name fields = Some v -> exists s, v = JStr s.

(** The lock discipline on a trace: the lock is acquired only when free,
    released only when held, and a shared attribute is only read or
    written while it is held. *)
Fixpoint guarded (held : bool) (tr : list event) : bool :=
  match tr with
  | [] => true
  | Acquire :: rest => negb held && guarded true rest
  | Release :: rest => held && guarded false rest
  | (Read _ | Write _) :: rest => held && guarded held rest
  end.

(** The JSON values Python treats as false: the number 0 (as an integer
    or as a float of either sign), false, null, the empty string, the
    empty array and the empty object. *)
Definition falsy_values : list json :=
  [JInt 0; JFloat (S754_zero false); JFloat (S754_zero true); JBool false; JNull;
   JStr []; JArr []; JObj []].

(** Numbers and booleans: hashable, not iterable. *)
Definition is_number (v : json) : bool :=
  match v with
  | JBool _ | JInt _ | JFloat _ => true
  | _ => false
  end.

(** ** A concrete daemon and runtime for the worked examples *)

(** JSON text written with apostrophes for the quotation marks. *)
Definition jlit (s : string) : pystr :=
  (fun cp => if (cp =? 39)%N then 34%N else cp) <$> lit s.

Definition jbytes (s : string) : bytes :=
  (fun b => if Byte.eqb b "'"%byte then x22 else b) <$> blit s.

(** What [json.loads] returns on the texts of the examples; every other
    text is reported as not being JSON, with the message [json.loads]
    has for a text that does not begin with a JSON value. *)
Definition demo_loads (text : pystr) : result json :=
  if bool_decide (text = jlit "[1]") then Ok (JArr [JInt 1])
  else if bool_decide (text = jlit "{'type':'ping'}") then
    Ok (JObj [(lit "type", JStr (lit "ping"))])
  else if bool_decide (text = jlit "{'type':'bogus'}") then
    Ok (JObj [(lit "type", JStr (lit "bogus"))])
  else if bool_decide
            (text = jlit "{'type':'weight','address':'A1','selection_id':'x','balance_round':'5'}")
  then
    Ok (JObj [(lit "type", JStr (lit "weight")); (lit "address", JStr (lit "A1"));
              (lit "selection_id", JStr (lit "x")); (lit "balance_round", JStr (lit "5"))])
  else if bool_decide
            (text = jlit "{'type':'weight','address':'ZZ','selection_id':'x','balance_round':'5'}")
  then
    Ok (JObj [(lit "type", JStr (lit "weight")); (lit "address", JStr (lit "ZZ"));
              (lit "selection_id", JStr (lit "x")); (lit "balance_round", JStr (lit "5"))])
  else Raise (JSONDecodeError (lit "Expecting value: line 1 column 1 (char 0)")).

Definition demo_repr (v : json) : pystr := lit "?".

Definition demo_daemon : WeightDaemon :=
  {| genesis_hash := blit "0123456789abcdef0123456789abcdef";
     protocol_version := lit "1.0";
     algorithm_version := lit "1.0";
     weight_table := {[ lit "B2:x:5" := 7; lit "5:x:5" := 9 ]};
     total_weight := 1000000;
     default_weight := None;
     address_weights := {[ lit "A1" := 1000000 ]} |}.

(** The same daemon constructed with [default_weight=3]. *)
Definition override_daemon : WeightDaemon :=
  {| genesis_hash := genesis_hash demo_daemon;
     protocol_version := protocol_version demo_daemon;
     algorithm_version := algorithm_version demo_daemon;
     weight_table := weight_table demo_daemon;
     total_weight := total_weight demo_daemon;
     default_weight := Some 3;
     address_weights := address_weights demo_daemon |}.

Definition demo_state (chunks : list bytes) : state :=
  {| self := demo_daemon;
     client_socket := {| inbox := Ok <$> chunks; send_error := None;
                         sent := []; closed := false |};
     stderr := [];
     trace := [] |}.

Definition override_state : state :=
  {| self := override_daemon;
     client_socket := {| inbox := []; send_error := None; sent := []; closed := false |};
     stderr := [];
     trace := [] |}.

Definition weight_request (address selection_id balance_round : json) : list (pystr * json) :=
  [(lit "type", JStr (lit "weight")); (lit "address", address);
   (lit "selection_id", selection_id); (lit "balance_round", balance_round)].

Definition total_weight_request (balance_round vote_round : json) : list (pystr * json) :=
  [(lit "type", JStr (lit "total_weight")); (lit "balance_round", balance_round);
   (lit "vote_round", vote_round)].

(** ** Start-up: the constructor and [parse_genesis_hash] *)

(** [WeightDaemon.__init__], for the attributes request handling uses.
    An argument the caller leaves out is [None] here and takes the
    default of the signature; a table that is left out, [None] or empty
    becomes the empty dict.  [port], [running], [server_socket] and
    [_lock] concern the acceptor only. *)
Definition __init__ (genesis_hash : bytes) (protocol_version algorithm_version : option pystr)
    (weight_table : option (gmap pystr Z)) (total_weight default_weight : option Z)
    (address_weights : option (gmap pystr Z)) : WeightDaemon :=
  {| genesis_hash := genesis_hash;
     protocol_version := default (lit "1.0") protocol_version;
     algorithm_version := default (lit "1.0") algorithm_version;
     weight_table := default ∅ weight_table;
     total_weight := default 1000000 total_weight;
     default_weight := default_weight;
     address_weights := default ∅ address_weights |}.

(** The characters [bytes.fromhex] skips between two bytes: space and
    the ASCII control characters tab to carriage return. *)
Definition is_space (c : N) : bool := ((c =? 32) || ((9 <=? c) && (c <=? 13)))%N.

(** The value of a hexadecimal digit of either case. *)
Definition hex_value (c : N) : option N :=
  (if (48 <=? c) && (c <=? 57) then Some (c - 48)
   else if (97 <=? c) && (c <=? 102) then Some (c - 87)
   else if (65 <=? c) && (c <=? 70) then Some (c - 55)
   else None)%N.

(** [bytes.fromhex]: two digits per byte, whitespace allowed between
    bytes but not inside one; [None] is its [ValueError]. *)
Fixpoint fromhex (s : pystr) : option bytes :=
  match s with
  | [] => Some []
  | c :: rest =>
      if is_space c then fromhex rest
      else
        match hex_value c, rest with
        | Some top, d :: rest' =>
            match hex_value d with
            | Some bot => cons (byte_of_N (top * 16 + bot)) <$> fromhex rest'
            | None => None
            end
        | _, _ => None
        end
  end.

(** [h.hex()]: two lower-case digits per byte. *)
Definition hex (h : bytes) : pystr :=
  flat_map (fun b => [hex_digit (Byte.to_N b / 16); hex_digit (Byte.to_N b mod 16)]%N) h.

(** [s.encode("ascii")]; [None] is its error. *)
Fixpoint encode_ascii (s : pystr) : option bytes :=
  match s with
  | [] => Some []
  | cp :: rest => if (cp <? 128)%N then cons (byte_of_N cp) <$> encode_ascii rest else None
  end.

(** [binascii.a2b_base64] as [base64.b64decode] calls it (not strict):
    characters outside the alphabet are skipped, a padding character
    counts only in the second half of a group of four and ends the input
    once the group is complete, and the input must not end inside a group.
    [quad_pos] is the position in the group, [leftchar] the bits not yet
    written, [pads] the padding characters seen in a row. *)
Fixpoint a2b_base64 (quad_pos leftchar pads : N) (s : bytes) : option bytes :=
  match s with
  | [] => if (quad_pos =? 0)%N then Some [] else None
  | b :: rest =>
      let c := Byte.to_N b in
      if is_pad c then
        if (2 <=? quad_pos)%N then
          if (4 <=? quad_pos + (pads + 1))%N then Some []
          else a2b_base64 quad_pos leftchar (pads + 1)%N rest
        else a2b_base64 quad_pos leftchar pads rest
      else
        match b64_index c with
        | None => a2b_base64 quad_pos leftchar pads rest
        | Some v =>
            (if quad_pos =? 0 then a2b_base64 1 v 0 rest
             else if quad_pos =? 1 then
               cons (byte_of_N (leftchar * 4 + v / 16)) <$> a2b_base64 2 (v mod 16) 0 rest
             else if quad_pos =? 2 then
               cons (byte_of_N (leftchar * 16 + v / 4)) <$> a2b_base64 3 (v mod 4) 0 rest
             else cons (byte_of_N (leftchar * 64 + v)) <$> a2b_base64 0 0 0 rest)%N
        end
  end.

(** [base64.b64decode] on a [str], with its default [validate=False]. *)
Definition base64_b64decode (s : pystr) : option bytes :=
  encode_ascii s ≫= a2b_base64 0 0 0.

(** [parse_genesis_hash]: [None] is the [ValueError] it ends with. *)
Definition parse_genesis_hash (genesis_hash_str : pystr) : option bytes :=
  let from_base64 :=
    match base64_b64decode genesis_hash_str with
    | Some decoded => if (length decoded =? 32)%nat then Some decoded else None
    | None => None
    end in
  if (length genesis_hash_str =? 64)%nat then
    match fromhex genesis_hash_str with
    | Some decoded => Some decoded
    | None => from_base64
    end
  else from_base64.

(** Characters [json.dumps] leaves as they are. *)
Definition is_printable (s : bytes) : bool :=
  forallb (fun b => (32 <=? Byte.to_N b)%N && (Byte.to_N b <=? 126)%N) s.

Definition is_printable_text (s : pystr) : bool :=
  forallb (fun cp => (32 <=? cp)%N && (cp <=? 126)%N) s.

(** The character that joins the fields of a composite key. *)
Definition colon : N := 58%N.

(** A string that does not contain it. *)
Definition colon_free (s : pystr) : bool := forallb (fun cp => negb (cp =? colon)%N) s.

(** Lists and dicts: truthy when not empty, but not hashable. *)
Definition unhashable (v : json) : bool :=
  match v with
  | JArr _ | JObj _ => true
  | _ => false
  end.

(** The events inside a critical section that only reads. *)
Definition only_reads (body : list event) : bool :=
  forallb (fun e => match e with Read _ => true | _ => false end) body.

(** What the resolution stage of [_handle_weight] answers, as a function
    of the daemon alone. *)
Definition resolved (py_repr : json -> pystr) (d : WeightDaemon)
    (address selection_id balance_round : json) : result json :=
  match default_weight d with
  | Some w => Ok (weight_response w)
  | None =>
      match table_contains (address_weights d) address with
      | Raise e => Raise e
      | Ok true => result_map weight_response (table_getitem (address_weights d) address)
      | Ok false =>
          match weight_table d
                !! composite_key py_repr address selection_id balance_round with
          | Some w => Ok (weight_response w)
          | None =>
              result_map (fun total => weight_response (total mod 1000000))
                (sum_ord address)
          end
      end
  end.

(** ** Running the monad *)

Ltac run :=
  repeat (unfold mbind, M_bind, mret, M_ret, lift, gets, modify, raise, read,
            with_lock, try_finally, try_except, outcome, final in *;
          cbn [fst snd] in * ).

Ltac look :=
  cbn [table_contains table_getitem py_str self record_event fst snd] in *.

Lemma absent_falsy fields name : absent fields name -> truthy (field fields name) = false.
Proof. unfold field. intros [H | [H | H]]; rewrite H; reflexivity. Qed.

Section Dispatch.
Variable py_repr : json -> pystr.

Lemma dispatch_weight fields st :
  has_type fields "weight" ->
  _handle_request py_repr (JObj fields) st = _handle_weight py_repr (JObj fields) st.
Proof. unfold has_type, _handle_request, dict_get. intros ->. reflexivity. Qed.

Lemma dispatch_total_weight fields st :
  has_type fields "total_weight" ->
  _handle_request py_repr (JObj fields) st = _handle_total_weight (JObj fields) st.
Proof. unfold has_type, _handle_request, dict_get. intros ->. reflexivity. Qed.

Lemma dispatch_identity fields st :
  has_type fields "identity" ->
  _handle_request py_repr (JObj fields) st = _handle_identity st.
Proof. unfold has_type, _handle_request, dict_get. intros ->. reflexivity. Qed.

(** [_handle_weight] on an object, by the truth values of its fields. *)
Lemma handle_weight_object fields st :
  _handle_weight py_repr (JObj fields) st =
    if negb (truthy (field fields (lit "address"))) then
      (Ok (missing_field "address"), st)
    else if negb (truthy (field fields (lit "selection_id"))) then
      (Ok (missing_field "selection_id"), st)
    else if negb (truthy (field fields (lit "balance_round"))) then
      (Ok (missing_field "balance_round"), st)
    else resolve_weight py_repr (field fields (lit "address"))
           (field fields (lit "selection_id")) (field fields (lit "balance_round")) st.
Proof.
  unfold _handle_weight, dict_get, field. run.
  repeat (destruct (negb _); [reflexivity |]). reflexivity.
Qed.
End Dispatch.

(** ** Validation of required fields *)

(** C4: a weight request with a missing, null or empty required field is
    answered with the [bad_request] error naming the first such field in
    the order address, selection_id, balance_round; the state is left
    untouched, so neither the override nor a table is consulted. *)
Theorem weight_first_missing_field py_repr fields st :
  has_type fields "weight" ->
  (absent fields (lit "address") ->
   _handle_request py_repr (JObj fields) st = (Ok (missing_field "address"), st))
  /\ (truthy (field fields (lit "address")) = true ->
      absent fields (lit "selection_id") ->
      _handle_request py_repr (JObj fields) st = (Ok (missing_field "selection_id"), st))
  /\ (truthy (field fields (lit "address")) = true ->
      truthy (field fields (lit "selection_id")) = true ->
      absent fields (lit "balance_round") ->
      _handle_request py_repr (JObj fields) st = (Ok (missing_field "balance_round"), st)).
Proof.
  intros Htype.
  rewrite (dispatch_weight py_repr fields st Htype), handle_weight_object.
  repeat split.
  - intros Ha%absent_falsy. now rewrite Ha.
  - intros Ha Hs%absent_falsy. now rewrite Ha, Hs.
  - intros Ha Hs Hb%absent_falsy. now rewrite Ha, Hs, Hb.
Qed.

Lemma weight_first_missing_field_witness :
  _handle_request demo_repr (JObj (weight_request JNull JNull JNull)) (demo_state [])
    = (Ok (missing_field "address"), demo_state [])
  /\ _handle_request demo_repr
       (JObj [(lit "type", JStr (lit "weight")); (lit "address", JStr (lit "A1"))])
       (demo_state [])
     = (Ok (missing_field "selection_id"), demo_state [])
  /\ _handle_request demo_repr
       (JObj (weight_request (JStr (lit "A1")) (JStr (lit "x")) (JStr []))) (demo_state [])
     = (Ok (missing_field "balance_round"), demo_state []).
Proof.
  split; [| split].
  - apply weight_first_missing_field; [reflexivity |].
    right; left; reflexivity.
  - apply weight_first_missing_field; [reflexivity | reflexivity |].
    left; reflexivity.
  - apply weight_first_missing_field; [reflexivity | reflexivity | reflexivity |].
    right; right; reflexivity.
Defined.

(** ** Decimal strings *)

Lemma lit_latin1 (s : string) : forallb (fun c => (c <? 256)%N) (lit s) = true.
Proof.
  unfold lit. apply forallb_forall. intros c Hc.
  apply in_map_iff in Hc as (a & <- & _).
  apply N.ltb_lt, N_ascii_bounded.
Qed.

Lemma unlit_lit (s : string) : unlit (lit s) = s.
Proof.
  unfold unlit, lit. induction s as [| a s IH]; [reflexivity |].
  cbn. now rewrite ascii_N_embedding, IH.
Qed.

(** [str(n)] spells [n] in decimal: reading it back gives [n]. *)
Lemma int_of_str_str_int (n : Z) : int_of_str (str_int n) = Some n.
Proof.
  unfold int_of_str, str_int.
  rewrite lit_latin1, unlit_lit, NilZero.isi.
  - cbn. now rewrite DecimalZ.of_to.
  - destruct n; simpl; try discriminate.
    intros [= H]. now apply Unsigned.to_uint_nonnil in H.
  - destruct n; simpl; try discriminate.
    intros [= H]. now apply Unsigned.to_uint_nonnil in H.
Qed.

(** C5: a total_weight request is answered with the [bad_request] error
    naming balance_round when that field is missing or empty, else with
    the one naming vote_round when that field is missing or empty, and
    otherwise with the decimal string of the shared total weight, whatever
    the two fields hold. *)
Theorem total_weight_request_result py_repr fields st :
  has_type fields "total_weight" ->
  (absent fields (lit "balance_round") ->
   _handle_request py_repr (JObj fields) st = (Ok (missing_field "balance_round"), st))
  /\ (truthy (field fields (lit "balance_round")) = true ->
      absent fields (lit "vote_round") ->
      _handle_request py_repr (JObj fields) st = (Ok (missing_field "vote_round"), st))
  /\ (truthy (field fields (lit "balance_round")) = true ->
      truthy (field fields (lit "vote_round")) = true ->
      outcome (_handle_request py_repr (JObj fields)) st
        = Ok (JObj [(lit "total_weight", JStr (str_int (total_weight (self st))))])
      /\ int_of_str (str_int (total_weight (self st))) = Some (total_weight (self st))).
Proof.
  intros Htype. unfold outcome.
  rewrite (dispatch_total_weight py_repr fields st Htype).
  unfold _handle_total_weight, dict_get. fold (field fields (lit "balance_round")).
  fold (field fields (lit "vote_round")). run.
  split; [| split].
  - intros Hb%absent_falsy. now rewrite Hb.
  - intros Hb Hv%absent_falsy. now rewrite Hb, Hv.
  - intros Hb Hv. rewrite Hb, Hv. split; [reflexivity | apply int_of_str_str_int].
Qed.

Lemma total_weight_request_result_witness :
  _handle_request demo_repr (JObj (total_weight_request (JStr []) (JStr (lit "9"))))
    (demo_state [])
    = (Ok (missing_field "balance_round"), demo_state [])
  /\ _handle_request demo_repr (JObj (total_weight_request (JStr (lit "5")) JNull))
       (demo_state [])
     = (Ok (missing_field "vote_round"), demo_state [])
  /\ outcome (_handle_request demo_repr
                (JObj (total_weight_request (JStr (lit "5")) (JStr (lit "9")))))
       (demo_state [])
     = Ok (JObj [(lit "total_weight", JStr (lit "1000000"))]).
Proof.
  split; [| split].
  - apply total_weight_request_result; [reflexivity |].
    right; right; reflexivity.
  - apply total_weight_request_result; [reflexivity | reflexivity |].
    right; left; reflexivity.
  - apply (total_weight_request_result demo_repr
             (total_weight_request (JStr (lit "5")) (JStr (lit "9"))) (demo_state []));
      reflexivity.
Defined.

(** ** Dispatch on the request type *)

Lemma eq_str_false (v : json) (s : pystr) : v <> JStr s -> eq_str v s = false.
Proof.
  destruct v; try reflexivity. intros Hne. cbn.
  apply bool_decide_eq_false. congruence.
Qed.

(** C6: an object whose type is none of ping, identity, weight and
    total_weight, or that has no type at all, is answered with the error
    [Unknown request type: <type>] and the code [unsupported]; the text
    substituted is the type string itself, and the empty string when the
    field is missing. *)
Theorem unknown_request_type py_repr fields st :
  Forall (fun known => request_type fields <> JStr (lit known)) known_types ->
  _handle_request py_repr (JObj fields) st
    = (Ok (error_response
             (lit "Unknown request type: " ++ py_str py_repr (request_type fields))
             (lit "unsupported")), st)
  /\ (forall s, assoc (lit "type") fields = Some (JStr s) ->
      py_str py_repr (request_type fields) = s)
  /\ (assoc (lit "type") fields = None -> py_str py_repr (request_type fields) = []).
Proof.
  intros Hknown. split; [| split].
  - apply Forall_cons in Hknown as [Hping Hknown].
    apply Forall_cons in Hknown as [Hidentity Hknown].
    apply Forall_cons in Hknown as [Hweight Hknown].
    apply Forall_cons in Hknown as [Htotal _].
    unfold _handle_request, dict_get. fold (request_type fields). run.
    now rewrite !eq_str_false.
  - intros s Hs. unfold request_type. now rewrite Hs.
  - intros Hnone. unfold request_type. now rewrite Hnone.
Qed.

Lemma unknown_request_type_witness :
  _handle_request demo_repr (JObj [(lit "type", JStr (lit "bogus"))]) (demo_state [])
    = (Ok (error_response (lit "Unknown request type: bogus") (lit "unsupported")),
       demo_state [])
  /\ _handle_request demo_repr (JObj [(lit "address", JStr (lit "A1"))]) (demo_state [])
     = (Ok (error_response (lit "Unknown request type: ") (lit "unsupported")),
        demo_state []).
Proof.
  split.
  - apply (unknown_request_type demo_repr [(lit "type", JStr (lit "bogus"))]).
    repeat constructor; discriminate.
  - apply (unknown_request_type demo_repr [(lit "address", JStr (lit "A1"))]).
    repeat constructor; discriminate.
Defined.

(** ** Weight resolution *)

(** Decimal strings go through [json.dumps] unescaped. *)
Lemma escape_digits (d : Decimal.uint) :
  flat_map escape_char (lit (NilEmpty.string_of_uint d)) = lit (NilEmpty.string_of_uint d).
Proof. induction d; cbn; try reflexivity; now f_equal. Qed.

Lemma escape_uint (d : Decimal.uint) :
  flat_map escape_char (lit (NilZero.string_of_uint d)) = lit (NilZero.string_of_uint d).
Proof.
  destruct d; [reflexivity | ..];
    match goal with |- context [NilZero.string_of_uint ?x] => exact (escape_digits x) end.
Qed.

Lemma escape_str_int (n : Z) : flat_map escape_char (str_int n) = str_int n.
Proof.
  unfold str_int, NilZero.string_of_int.
  destruct (Z.to_int n) as [d | d]; [apply escape_uint |].
  change (lit (String "-" (NilZero.string_of_uint d)))
    with (45%N :: lit (NilZero.string_of_uint d)).
  cbn [flat_map]. now rewrite escape_uint.
Qed.

(** On the wire a weight is a string of digits between quotation marks. *)
Lemma json_dumps_weight_response py_repr (weight : Z) :
  json_dumps py_repr (weight_response weight)
    = jlit "{'weight': '" ++ str_int weight ++ jlit "'}".
Proof.
  unfold weight_response. cbn [json_dumps list_fmap join fst snd].
  unfold encode_basestring_ascii at 2. rewrite escape_str_int.
  generalize (str_int weight) as digits. intros digits.
  rewrite <- !app_assoc. vm_compute. reflexivity.
Qed.

Lemma sum_from_chars (s : pystr) (acc : Z) :
  sum_from acc ((fun cp => JStr [cp]) <$> s) = Ok (acc + code_point_sum s).
Proof.
  revert acc. induction s as [| cp s IH]; intros acc; cbn.
  - f_equal. lia.
  - rewrite IH. f_equal. unfold code_point_sum. cbn. lia.
Qed.

Lemma sum_ord_str (s : pystr) : sum_ord (JStr s) = Ok (code_point_sum s).
Proof. unfold sum_ord. cbn. now rewrite sum_from_chars. Qed.

Lemma field_present fields name v : assoc name fields = Some v -> field fields name = v.
Proof. unfold field. now intros ->. Qed.

Lemma truthy_str (s : pystr) : s <> [] -> truthy (JStr s) = true.
Proof. now destruct s. Qed.

(** The resolution stage on a string address: the first table that knows
    the request decides, else the code-point sum; the other two fields
    only enter through the composite key. *)
Lemma resolve_weight_string_address py_repr address selection_id balance_round st :
  outcome (resolve_weight py_repr (JStr address) selection_id balance_round) st
    = Ok (weight_response
            match default_weight (self st) with
            | Some w => w
            | None =>
                match address_weights (self st) !! address with
                | Some w => w
                | None =>
                    match weight_table (self st)
                          !! composite_key py_repr (JStr address) selection_id
                               balance_round with
                    | Some w => w
                    | None => code_point_sum address mod 1000000
                    end
                end
            end).
Proof.
  unfold resolve_weight, lookup_weight. run.
  destruct (default_weight (self st)) as [w |]; [reflexivity |].
  look.
  destruct (address_weights (self st) !! address) as [w |] eqn:Haddr.
  - rewrite bool_decide_eq_true_2 by eauto. look. now rewrite Haddr.
  - rewrite bool_decide_eq_false_2 by (intros [? ?]; discriminate). look.
    destruct (weight_table (self st) !! _) as [w |] eqn:Hkey.
    + rewrite bool_decide_eq_true_2 by eauto. look. now rewrite Hkey.
    + rewrite bool_decide_eq_false_2 by (intros [? ?]; discriminate). look.
      now rewrite sum_ord_str.
Qed.

(** C1: a weight request whose three fields are non-empty strings gets
    the weight of the first rule that applies, in the order override,
    address table, weight table under the composite key, code-point sum
    modulo 1,000,000; the weight is returned as its decimal string, and
    when an override is configured the state is untouched (no lookup). *)
Theorem weight_resolution_order py_repr fields st address selection_id balance_round :
  has_type fields "weight" ->
  assoc (lit "address") fields = Some (JStr address) -> address <> [] ->
  assoc (lit "selection_id") fields = Some (JStr selection_id) -> selection_id <> [] ->
  assoc (lit "balance_round") fields = Some (JStr balance_round) -> balance_round <> [] ->
  let weight := spec_weight (self st) address selection_id balance_round in
  outcome (_handle_request py_repr (JObj fields)) st
    = Ok (JObj [(lit "weight", JStr (str_int weight))])
  /\ int_of_str (str_int weight) = Some weight
  /\ json_dumps py_repr (JObj [(lit "weight", JStr (str_int weight))])
     = jlit "{'weight': '" ++ str_int weight ++ jlit "'}"
  /\ (is_Some (default_weight (self st)) ->
      final (_handle_request py_repr (JObj fields)) st = st).
Proof.
  intros Htype Ha Hane Hs Hsne Hb Hbne weight. subst weight.
  unfold outcome, final.
  rewrite (dispatch_weight py_repr fields st Htype), handle_weight_object.
  rewrite (field_present _ _ _ Ha), (field_present _ _ _ Hs), (field_present _ _ _ Hb).
  rewrite !truthy_str by assumption. cbn [negb].
  split; [| split; [| split]];
    [| apply int_of_str_str_int | apply json_dumps_weight_response |].
  - apply resolve_weight_string_address.
  - intros [w Hw]. unfold resolve_weight. run. now rewrite Hw.
Qed.

Lemma weight_resolution_order_witness :
  outcome (_handle_request demo_repr
             (JObj (weight_request (JStr (lit "A1")) (JStr (lit "x")) (JStr (lit "5")))))
    (demo_state [])
    = Ok (JObj [(lit "weight", JStr (lit "1000000"))])
  /\ outcome (_handle_request demo_repr
                (JObj (weight_request (JStr (lit "B2")) (JStr (lit "x")) (JStr (lit "5")))))
       (demo_state [])
     = Ok (JObj [(lit "weight", JStr (lit "7"))])
  /\ outcome (_handle_request demo_repr
                (JObj (weight_request (JStr (lit "ZZ")) (JStr (lit "x")) (JStr (lit "5")))))
       (demo_state [])
     = Ok (JObj [(lit "weight", JStr (lit "180"))]).
Proof.
  split; [| split].
  - apply (weight_resolution_order demo_repr _ (demo_state [])
             (lit "A1") (lit "x") (lit "5")); (reflexivity || discriminate).
  - apply (weight_resolution_order demo_repr _ (demo_state [])
             (lit "B2") (lit "x") (lit "5")); (reflexivity || discriminate).
  - apply (weight_resolution_order demo_repr _ (demo_state [])
             (lit "ZZ") (lit "x") (lit "5")); (reflexivity || discriminate).
Defined.

(** ** Base64 *)

Ltac divlia := zify; Z.to_euclidean_division_equations; lia.

Lemma list_ind3 {A} (P : list A -> Prop) :
  P [] -> (forall a, P [a]) -> (forall a b, P [a; b]) ->
  (forall a b c l, P l -> P (a :: b :: c :: l)) ->
  forall l, P l.
Proof.
  intros H0 H1 H2 H3 l.
  assert (Hall : forall n l, (length l <= n)%nat -> P l).
  { clear l. induction n as [| n IH]; intros [| a [| b [| c l]]] Hl; cbn in Hl;
      try lia; auto.
    apply H3, IH. lia. }
  apply (Hall (length l)). lia.
Qed.

Lemma b64_index_char (i : N) : (i < 64)%N -> b64_index (Byte.to_N (b64_char i)) = Some i.
Proof.
  intros Hi.
  assert (H : forallb (fun n => bool_decide
                (b64_index (Byte.to_N (b64_char (N.of_nat n))) = Some (N.of_nat n)))
                (seq 0 64) = true) by (vm_compute; reflexivity).
  rewrite forallb_forall in H. specialize (H (N.to_nat i)).
  rewrite N2Nat.id in H. apply bool_decide_eq_true in H; [assumption |].
  apply in_seq. lia.
Qed.

Lemma b64_char_not_pad (i : N) : (i < 64)%N -> is_pad (Byte.to_N (b64_char i)) = false.
Proof.
  intros Hi.
  assert (H : forallb (fun n => negb (is_pad (Byte.to_N (b64_char (N.of_nat n)))))
                (seq 0 64) = true) by (vm_compute; reflexivity).
  rewrite forallb_forall in H. specialize (H (N.to_nat i)).
  rewrite N2Nat.id in H. apply negb_true_iff, H, in_seq. lia.
Qed.

Lemma b64_char_ascii (i : N) : (Byte.to_N (b64_char i) <? 128)%N = true.
Proof.
  assert (H : forallb (fun b => (Byte.to_N b <? 128)%N) (b64_pad :: b64_alphabet) = true)
    by (vm_compute; reflexivity).
  rewrite forallb_forall in H. apply H. unfold b64_char.
  destruct (nth_in_or_default (N.to_nat i) b64_alphabet b64_pad) as [Hin | ->].
  - now right.
  - now left.
Qed.

Lemma decode_ascii_b64encode (s : bytes) :
  decode_ascii (b64encode s) = Ok (Byte.to_N <$> b64encode s).
Proof.
  induction s as [| a | a b | a b c s IH] using list_ind3;
    cbn [b64encode decode_ascii]; rewrite ?b64_char_ascii; try reflexivity.
  rewrite IH. reflexivity.
Qed.

(** Decoding inverts encoding, on every byte string. *)
Lemma b64decode_b64encode (s : bytes) : b64decode (Byte.to_N <$> b64encode s) = Some s.
Proof.
  induction s as [| a | a b | a b c s IH] using list_ind3.
  - reflexivity.
  - pose proof (Byte.to_N_bounded a) as Ha.
    cbn [b64encode fmap list_fmap b64decode].
    rewrite !b64_index_char by divlia. cbn [mbind option_bind].
    change (is_pad (Byte.to_N b64_pad)) with true. cbn [andb bool_decide decide_rel].
    replace (_ + _)%N with (Byte.to_N a) by divlia.
    now rewrite Byte.of_to_N.
  - pose proof (Byte.to_N_bounded a) as Ha. pose proof (Byte.to_N_bounded b) as Hb.
    cbn [b64encode fmap list_fmap b64decode].
    rewrite !b64_index_char by divlia. cbn [mbind option_bind].
    rewrite b64_char_not_pad by divlia.
    change (is_pad (Byte.to_N b64_pad)) with true. cbn [andb bool_decide decide_rel].
    replace (_ / 4 * 4 + _)%N with (Byte.to_N a) by divlia.
    replace (_ * 16 + _)%N with (Byte.to_N b) by divlia.
    now rewrite !Byte.of_to_N.
  - pose proof (Byte.to_N_bounded a) as Ha. pose proof (Byte.to_N_bounded b) as Hb.
    pose proof (Byte.to_N_bounded c) as Hc.
    cbn [b64encode fmap list_fmap b64decode]. cbn [fmap list_fmap] in IH.
    rewrite !b64_index_char by divlia. cbn [mbind option_bind].
    rewrite !b64_char_not_pad by divlia.
    replace (_ / 4 * 4 + _)%N with (Byte.to_N a) by divlia.
    replace (_ * 16 + _)%N with (Byte.to_N b) by divlia.
    replace (_ * 64 + _)%N with (Byte.to_N c) by divlia.
    rewrite !Byte.of_to_N. cbn [mbind option_bind].
    now rewrite IH.
Qed.

(** C7: the genesis_hash of an identity response base64-decodes to the
    configured genesis-hash bytes, and the two version fields are the
    configured version strings. *)
Theorem identity_response_roundtrip py_repr fields st :
  has_type fields "identity" ->
  exists encoded,
    _handle_request py_repr (JObj fields) st
      = (Ok (JObj [(lit "genesis_hash", JStr encoded);
                   (lit "protocol_version", JStr (protocol_version (self st)));
                   (lit "algorithm_version", JStr (algorithm_version (self st)))]), st)
    /\ b64decode encoded = Some (genesis_hash (self st)).
Proof.
  intros Htype. exists (Byte.to_N <$> b64encode (genesis_hash (self st))). split.
  - rewrite (dispatch_identity py_repr fields st Htype).
    unfold _handle_identity. run. now rewrite decode_ascii_b64encode.
  - apply b64decode_b64encode.
Qed.

Lemma identity_response_roundtrip_witness :
  exists encoded,
    _handle_request demo_repr (JObj [(lit "type", JStr (lit "identity"))]) (demo_state [])
      = (Ok (JObj [(lit "genesis_hash", JStr encoded);
                   (lit "protocol_version", JStr (lit "1.0"));
                   (lit "algorithm_version", JStr (lit "1.0"))]), demo_state [])
    /\ b64decode encoded = Some (blit "0123456789abcdef0123456789abcdef").
Proof.
  apply (identity_response_roundtrip demo_repr
           [(lit "type", JStr (lit "identity"))] (demo_state [])).
  reflexivity.
Defined.

(** ** UTF-8 *)

Lemma to_N_byte_of_N (n : N) : (n < 256)%N -> Byte.to_N (byte_of_N n) = n.
Proof.
  intros Hn. unfold byte_of_N.
  destruct (Byte.of_N n) as [b |] eqn:Hb.
  - now apply Byte.to_of_N.
  - apply Byte.of_N_None_iff in Hb. lia.
Qed.

Lemma continuation_byte_of_N (n : N) :
  (n < 64)%N -> continuation (byte_of_N (128 + n)) = Some n.
Proof.
  intros Hn. unfold continuation. rewrite to_N_byte_of_N by lia.
  replace ((128 <=? 128 + n) && (128 + n <=? 191))%N with true.
  - f_equal. lia.
  - symmetry. apply andb_true_iff. split; apply N.leb_le; lia.
Qed.

Ltac settle_tests :=
  repeat match goal with
    | |- context [(?a <? ?b)%N] =>
        first [ replace (a <? b)%N with true by (symmetry; apply N.ltb_lt; divlia)
              | replace (a <? b)%N with false by (symmetry; apply N.ltb_ge; divlia) ]
    end.

Lemma scalar_true (lo cp : N) :
  (lo <= cp)%N -> (cp < 1114112)%N ->
  ((55296 <=? cp) && (cp <=? 57343))%N = false ->
  scalar lo cp = true.
Proof.
  intros Hlo Hhi Hsurrogate. unfold scalar. rewrite Hsurrogate.
  rewrite !andb_true_iff, !N.leb_le. repeat split; [lia | lia].
Qed.

(** The decoder reads back whatever the encoder writes. *)
Lemma utf8_decode_encode (s : pystr) (encoded : bytes) :
  utf8_encode s = Ok encoded -> utf8_decode encoded = Ok s.
Proof.
  revert encoded. induction s as [| cp s IH]; intros encoded; cbn [utf8_encode].
  - now intros [= <-].
  - unfold encode_code_point.
    destruct (utf8_encode s) as [tail |] eqn:Htail;
      repeat match goal with
        | |- context [if ?c then _ else _] => destruct c eqn:?
        end; cbn [result_bind result_map]; try discriminate; intros [= <-];
      specialize (IH tail eq_refl);
      repeat match goal with
        | H : (_ <? _)%N = true |- _ => apply N.ltb_lt in H
        | H : (_ <? _)%N = false |- _ => apply N.ltb_ge in H
        end;
      cbn [app utf8_decode]; rewrite to_N_byte_of_N by divlia; settle_tests;
      rewrite ?continuation_byte_of_N by divlia.
    + now rewrite IH.
    + replace ((192 + cp / 64 - 192) * 64 + cp mod 64)%N with cp by divlia.
      rewrite scalar_true, IH; [reflexivity | lia | lia |].
      apply andb_false_iff. left. apply N.leb_gt. lia.
    + replace ((224 + cp / 4096 - 224) * 4096 + cp / 64 mod 64 * 64 + cp mod 64)%N
        with cp by divlia.
      rewrite scalar_true, IH; [reflexivity | lia | lia | assumption].
    + replace ((240 + cp / 262144 - 240) * 262144 + cp / 4096 mod 64 * 4096
               + cp / 64 mod 64 * 64 + cp mod 64)%N with cp by divlia.
      rewrite scalar_true, IH; [reflexivity | lia | lia | assumption].
Qed.

(** ** Framing: the read loop *)

Lemma read_loop_stops (chunks : list bytes) (data : bytes) :
  has_brace data = false ->
  exists k,
    (read_loop (Ok <$> chunks) data).1 = Ok (data ++ List.concat (take k chunks))
    /\ stop_point data chunks k
    /\ (forall j, (j < k)%nat -> ~ stop_point data chunks j).
Proof.
  revert data. induction chunks as [| chunk rest IH]; intros data Hdata.
  - exists 0%nat. cbn. rewrite app_nil_r. repeat split.
    + right; left; reflexivity.
    + lia.
  - assert (Hfirst : ~ stop_point data (chunk :: rest) 0 \/ chunk = []).
    { destruct chunk as [| b chunk]; [now right | left].
      unfold stop_point. cbn. rewrite app_nil_r. intros [H | [H | H]]; congruence. }
    destruct chunk as [| b chunk].
    + exists 0%nat. cbn. rewrite app_nil_r. repeat split.
      * right; right; reflexivity.
      * lia.
    + destruct Hfirst as [Hfirst | ?]; [| discriminate].
      cbn [fmap list_fmap read_loop].
      destruct (has_brace (data ++ b :: chunk)) eqn:Hbrace.
      * exists 1%nat. cbn. rewrite app_nil_r. repeat split.
        -- left. cbn. now rewrite app_nil_r.
        -- intros j Hj. now replace j with 0%nat by lia.
      * destruct (IH _ Hbrace) as (k & Hdata' & Hstop & Hmin).
        exists (S k). cbn [take List.concat]. rewrite app_assoc. repeat split.
        -- exact Hdata'.
        -- unfold stop_point in *. cbn [take List.concat lookup list_lookup].
           now rewrite app_assoc.
        -- intros [| j] Hj; [assumption |].
           specialize (Hmin j ltac:(lia)). unfold stop_point in *.
           cbn [take List.concat lookup list_lookup]. now rewrite app_assoc.
Qed.

Lemma read_data_run (st : state) :
  read_data st = ((read_loop (inbox (client_socket st)) []).1,
                  set_client_socket
                    (with_inbox (read_loop (inbox (client_socket st)) []).2) st).
Proof. unfold read_data. now destruct (read_loop _ _). Qed.

(** C8: on any sequence of chunks the read loop returns the chunks
    accumulated up to the first point where the peer has closed or the
    buffer holds a closing brace; and when no byte at all was received
    the handler sends nothing and closes the connection. *)
Theorem read_loop_first_brace json_loads py_repr st chunks :
  inbox (client_socket st) = Ok <$> chunks ->
  exists k,
    outcome read_data st = Ok (List.concat (take k chunks))
    /\ stop_point [] chunks k
    /\ (forall j, (j < k)%nat -> ~ stop_point [] chunks j)
    /\ (List.concat (take k chunks) = [] ->
        outcome (_handle_client json_loads py_repr) st = Ok tt
        /\ sent (client_socket (final (_handle_client json_loads py_repr) st))
           = sent (client_socket st)
        /\ closed (client_socket (final (_handle_client json_loads py_repr) st)) = true).
Proof.
  intros Hinbox.
  destruct (read_loop_stops chunks [] eq_refl) as (k & Hdata & Hstop & Hmin).
  exists k. unfold outcome, final. rewrite read_data_run, Hinbox. cbn [fst].
  split; [assumption |]. split; [assumption |]. split; [assumption |].
  intros Hempty. unfold _handle_client. run.
  rewrite read_data_run, Hinbox, Hdata. cbn [app]. rewrite Hempty.
  repeat split.
Qed.

Lemma read_loop_first_brace_witness :
  (exists k,
      outcome read_data (demo_state [blit "{x"; blit "y}"; blit "zz"])
        = Ok (List.concat (take k [blit "{x"; blit "y}"; blit "zz"]))
      /\ stop_point [] [blit "{x"; blit "y}"; blit "zz"] k
      /\ (forall j, (j < k)%nat -> ~ stop_point [] [blit "{x"; blit "y}"; blit "zz"] j))
  /\ sent (client_socket (final (_handle_client demo_loads demo_repr) (demo_state [])))
     = []
  /\ closed (client_socket (final (_handle_client demo_loads demo_repr) (demo_state [])))
     = true.
Proof.
  split.
  - destruct (read_loop_first_brace demo_loads demo_repr
                (demo_state [blit "{x"; blit "y}"; blit "zz"])
                [blit "{x"; blit "y}"; blit "zz"] eq_refl) as (k & Hdata & Hstop & Hmin & _).
    exists k. auto.
  - destruct (read_loop_first_brace demo_loads demo_repr (demo_state []) [] eq_refl)
      as (k & _ & _ & _ & Hzero).
    destruct Hzero as (_ & Hsent & Hclosed); [now destruct k |].
    split; assumption.
Defined.

(** ** Serialising a response *)

Lemma is_ascii_app (s t : pystr) : is_ascii (s ++ t) = is_ascii s && is_ascii t.
Proof. apply forallb_app. Qed.

Lemma hex_digit_ascii (n : N) : (n < 16)%N -> (hex_digit n <? 128)%N = true.
Proof. intros Hn. unfold hex_digit. apply N.ltb_lt. destruct (n <? 10)%N; lia. Qed.

Lemma unicode_escape_ascii (n : N) : is_ascii (unicode_escape n) = true.
Proof.
  unfold unicode_escape, is_ascii. cbn [forallb].
  rewrite !hex_digit_ascii by (apply N.mod_lt; discriminate). reflexivity.
Qed.

Lemma escape_char_ascii (cp : N) : is_ascii (escape_char cp) = true.
Proof.
  unfold escape_char.
  repeat (destruct (cp =? _)%N; [reflexivity |]).
  destruct ((32 <=? cp) && (cp <=? 126))%N eqn:Hprintable.
  - apply andb_true_iff in Hprintable as [_ Hle%N.leb_le].
    cbn. rewrite andb_true_r. apply N.ltb_lt. lia.
  - destruct (cp <? 65536)%N; [apply unicode_escape_ascii |].
    cbv zeta. now rewrite is_ascii_app, !unicode_escape_ascii.
Qed.

Lemma encode_basestring_ascii_is_ascii (s : pystr) :
  is_ascii (encode_basestring_ascii s) = true.
Proof.
  unfold encode_basestring_ascii. rewrite !is_ascii_app.
  replace (is_ascii (flat_map escape_char s)) with true; [reflexivity |].
  induction s as [| cp s IH]; [reflexivity |].
  cbn [flat_map]. now rewrite is_ascii_app, escape_char_ascii, <- IH.
Qed.

Lemma is_ascii_join (separator : pystr) (parts : list pystr) :
  is_ascii separator = true ->
  Forall (fun part => is_ascii part = true) parts ->
  is_ascii (join separator parts) = true.
Proof.
  intros Hsep Hparts. induction Hparts as [| part parts Hpart _ IH]; [reflexivity |].
  cbn [join]. destruct parts as [| next parts]; [exact Hpart |].
  now rewrite !is_ascii_app, Hpart, Hsep, IH.
Qed.

(** The text of a flat response is ASCII, whatever the runtime prints
    for floats. *)
Lemma json_dumps_flat_ascii py_repr response :
  flat response = true -> is_ascii (json_dumps py_repr response) = true.
Proof.
  destruct response as [| | | | | | fields]; try discriminate. cbn [flat json_dumps].
  intros Hflat. rewrite !is_ascii_app, is_ascii_join; [reflexivity .. |].
  induction fields as [| [k v] fields IH]; [constructor |].
  cbn [forallb] in Hflat. apply andb_true_iff in Hflat as [Hv Hflat].
  constructor; [| exact (IH Hflat)].
  rewrite !is_ascii_app, encode_basestring_ascii_is_ascii.
  destruct v as [| [|] | | | s | |]; try discriminate; cbn [json_dumps snd];
    rewrite ?encode_basestring_ascii_is_ascii; reflexivity.
Qed.

Lemma utf8_encode_ascii (s : pystr) :
  is_ascii s = true -> utf8_encode s = Ok (byte_of_N <$> s).
Proof.
  induction s as [| cp s IH]; [reflexivity |].
  cbn [is_ascii forallb]. intros [Hcp Hs]%andb_true_iff.
  cbn [utf8_encode]. unfold encode_code_point. rewrite Hcp. cbn [result_bind].
  now rewrite (IH Hs).
Qed.

Lemma payload_flat py_repr response :
  flat response = true ->
  utf8_encode (json_dumps py_repr response ++ [10%N]) = Ok (wire py_repr response).
Proof.
  intros Hflat. apply utf8_encode_ascii.
  now rewrite is_ascii_app, json_dumps_flat_ascii.
Qed.

(** ** What the handlers return *)

Lemma returns_ret {A} (P : A -> Prop) (a : A) : P a -> returns P (mret a).
Proof. intros Ha st a' [= <-]. exact Ha. Qed.

Lemma returns_bind_of {A B} (Q : A -> Prop) (P : B -> Prop) (m : M A) (k : A -> M B) :
  returns Q m -> (forall a, Q a -> returns P (k a)) -> returns P (m ≫= k).
Proof.
  intros Hm Hk st b. specialize (Hm st). unfold outcome in *. run.
  destruct (m st) as [[a | e] st1]; [| discriminate].
  apply (Hk a (Hm a eq_refl)).
Qed.

Lemma returns_bind {A B} (P : B -> Prop) (m : M A) (k : A -> M B) :
  (forall a, returns P (k a)) -> returns P (m ≫= k).
Proof.
  intros Hk. apply (returns_bind_of (fun _ => True)); [now intros st a _ | auto].
Qed.

Lemma returns_if {A} (P : A -> Prop) (b : bool) (m1 m2 : M A) :
  returns P m1 -> returns P m2 -> returns P (if b then m1 else m2).
Proof. now destruct b. Qed.

Lemma returns_with_lock {A} (P : A -> Prop) (m : M A) :
  returns P m -> returns P (with_lock m).
Proof.
  intros Hm st a. unfold outcome, with_lock. run.
  specialize (Hm (record_event Acquire st) a). unfold outcome in Hm.
  destruct (m (record_event Acquire st)) as [[a' | e] st1]; [auto | discriminate].
Qed.

Section Returns.
Variable py_repr : json -> pystr.

Lemma lookup_weight_returns address selection_id balance_round :
  returns (fun found => match found with
                        | inl response => flat response = true
                        | inr _ => True
                        end)
    (lookup_weight py_repr address selection_id balance_round).
Proof.
  unfold lookup_weight.
  repeat (first [ apply returns_bind; intros ?
                | apply returns_if
                | apply returns_ret; reflexivity ]).
Qed.

Lemma resolve_weight_returns address selection_id balance_round :
  returns (fun response => flat response = true)
    (resolve_weight py_repr address selection_id balance_round).
Proof.
  unfold resolve_weight. apply returns_bind. intros [w |].
  - now apply returns_ret.
  - eapply returns_bind_of; [apply returns_with_lock, lookup_weight_returns |].
    intros [response | w] Hfound; now apply returns_ret.
Qed.

(** Every response a handler returns is flat. *)
Lemma handle_request_returns request :
  returns (fun response => flat response = true) (_handle_request py_repr request).
Proof.
  unfold _handle_request, _handle_ping, _handle_identity, _handle_weight,
    _handle_total_weight.
  repeat (first [ apply resolve_weight_returns
                | apply returns_bind; intros ?
                | apply returns_if
                | apply returns_ret; reflexivity ]).
Qed.
End Returns.

(** ** The connection handler *)

Lemma close_run (st : state) :
  close st = (Ok tt, set_client_socket with_closed st).
Proof. reflexivity. Qed.

Section Client.
Variable json_loads : pystr -> result json.
Variable py_repr : json -> pystr.

Lemma send_response_sent response st :
  flat response = true ->
  send_error (client_socket st) = None ->
  _send_response py_repr response st
    = (Ok tt, set_client_socket (with_sent (wire py_repr response)) st).
Proof.
  intros Hflat Hsend. unfold _send_response, sendall. run.
  now rewrite (payload_flat py_repr response Hflat), Hsend.
Qed.

Lemma send_response_returns response st :
  (_send_response py_repr response st).1 = Ok tt.
Proof.
  unfold _send_response, sendall. run.
  destruct (utf8_encode _) as [payload | e]; [| reflexivity].
  now destruct (send_error (client_socket st)).
Qed.

(** The handler after the read loop has delivered a non-empty buffer. *)
Variables (st : state) (data : bytes) (rest : list (result bytes)).
Hypothesis Hread : read_loop (inbox (client_socket st)) [] = (Ok data, rest).
Hypothesis Hdata : data <> [].

Lemma handle_client_undecodable :
  utf8_decode data = Raise UnicodeDecodeError ->
  _handle_client json_loads py_repr st
    = (Ok tt, set_client_socket with_closed
                (print_stderr (ErrorHandlingClient UnicodeDecodeError)
                   (set_client_socket (with_inbox rest) st))).
Proof.
  intros Hutf. unfold _handle_client, except_JSONDecodeError. run.
  rewrite read_data_run, Hread. cbn [fst snd].
  destruct data as [| b data']; [contradiction |].
  now rewrite Hutf.
Qed.

Lemma handle_client_invalid_json text msg :
  utf8_decode data = Ok text ->
  json_loads text = Raise (JSONDecodeError msg) ->
  _handle_client json_loads py_repr st
    = (Ok tt, set_client_socket with_closed
                (final (_send_response py_repr
                          (error_response (lit "Invalid JSON: " ++ msg) bad_request))
                   (set_client_socket (with_inbox rest) st))).
Proof.
  intros Hutf Hjson. unfold _handle_client, except_JSONDecodeError. run.
  rewrite read_data_run, Hread. cbn [fst snd].
  destruct data as [| b data']; [contradiction |].
  rewrite Hutf, Hjson.
  pose proof (send_response_returns
                (error_response (lit "Invalid JSON: " ++ msg) bad_request)
                (set_client_socket (with_inbox rest) st)) as Hsent.
  now destruct (_send_response _ _ _) as [[[] | e] st2].
Qed.

Lemma handle_client_answered text request response st2 :
  utf8_decode data = Ok text ->
  json_loads text = Ok request ->
  _handle_request py_repr request (set_client_socket (with_inbox rest) st)
    = (Ok response, st2) ->
  _handle_client json_loads py_repr st
    = (Ok tt, set_client_socket with_closed
                (final (_send_response py_repr response) st2)).
Proof.
  intros Hutf Hjson Hreq. unfold _handle_client, except_JSONDecodeError. run.
  rewrite read_data_run, Hread. cbn [fst snd].
  destruct data as [| b data']; [contradiction |].
  rewrite Hutf, Hjson, Hreq.
  pose proof (send_response_returns response st2) as Hsent.
  now destruct (_send_response _ _ _) as [[[] | e] st3].
Qed.

Lemma handle_client_raised text request e st2 :
  utf8_decode data = Ok text ->
  json_loads text = Ok request ->
  _handle_request py_repr request (set_client_socket (with_inbox rest) st)
    = (Raise e, st2) ->
  _handle_client json_loads py_repr st
    = (Ok tt, set_client_socket with_closed
                (print_stderr (ErrorHandlingClient e) st2)).
Proof.
  intros Hutf Hjson Hreq. unfold _handle_client, except_JSONDecodeError. run.
  rewrite read_data_run, Hread. cbn [fst snd].
  destruct data as [| b data']; [contradiction |].
  now rewrite Hutf, Hjson, Hreq.
Qed.
End Client.

(** ** Handlers leave the daemon, the socket and the log alone *)

Create HintDb frame.

Lemma frame_ret {A} (a : A) : frame (mret a).
Proof. now intros st. Qed.

Lemma frame_lift {A} (r : result A) : frame (lift r).
Proof. now intros st. Qed.

Lemma frame_gets {A} (f : state -> A) : frame (gets f).
Proof. now intros st. Qed.

Lemma frame_event (e : event) : frame (modify (record_event e)).
Proof. now intros st. Qed.

Lemma frame_bind {A B} (m : M A) (k : A -> M B) :
  frame m -> (forall a, frame (k a)) -> frame (m ≫= k).
Proof.
  intros Hm Hk st. specialize (Hm st). unfold final in *. run.
  destruct (m st) as [[a | e] st1]; cbn [snd] in *; [| assumption].
  destruct (Hk a st1) as (H1 & H2 & H3). unfold final in *.
  destruct Hm as (E1 & E2 & E3). repeat split; congruence.
Qed.

Lemma frame_try_finally {A} (m : M A) (f : M unit) :
  frame m -> frame f -> frame (try_finally m f).
Proof.
  intros Hm Hf st. specialize (Hm st). unfold final in *. run.
  destruct (m st) as [r st1]; cbn [snd] in *.
  destruct (Hf st1) as (H1 & H2 & H3). unfold final in *.
  destruct Hm as (E1 & E2 & E3).
  destruct (f st1) as [[[] | e] st2]; cbn [snd] in *; repeat split; congruence.
Qed.

Lemma frame_if {A} (b : bool) (m1 m2 : M A) :
  frame m1 -> frame m2 -> frame (if b then m1 else m2).
Proof. now destruct b. Qed.

#[local] Hint Resolve frame_ret frame_lift frame_gets frame_event frame_bind
  frame_try_finally frame_if : frame.

Lemma frame_read {A} (x : shared) (f : WeightDaemon -> A) : frame (read x f).
Proof. unfold read. auto with frame. Qed.

Lemma frame_with_lock {A} (m : M A) : frame m -> frame (with_lock m).
Proof. unfold with_lock. auto with frame. Qed.

#[local] Hint Resolve frame_read frame_with_lock : frame.

Section Frames.
Variable py_repr : json -> pystr.

Lemma frame_lookup_weight address selection_id balance_round :
  frame (lookup_weight py_repr address selection_id balance_round).
Proof.
  unfold lookup_weight.
  repeat (first [ apply frame_bind; [auto with frame | intros ?]
                | apply frame_if | solve [auto with frame] ]).
Qed.

Lemma frame_resolve_weight address selection_id balance_round :
  frame (resolve_weight py_repr address selection_id balance_round).
Proof.
  unfold resolve_weight. apply frame_bind; [auto with frame |].
  intros [w |]; [auto with frame |].
  apply frame_bind; [apply frame_with_lock, frame_lookup_weight |].
  intros [response | w]; auto with frame.
Qed.

Lemma frame_handle_weight request : frame (_handle_weight py_repr request).
Proof.
  unfold _handle_weight.
  repeat (first [ apply frame_resolve_weight
                | apply frame_bind; [auto with frame | intros ?]
                | apply frame_if
                | solve [auto with frame] ]).
Qed.

Lemma frame_handle_total_weight request : frame (_handle_total_weight request).
Proof.
  unfold _handle_total_weight.
  repeat (first [ apply frame_bind; [auto with frame | intros ?]
                | apply frame_if | solve [auto with frame] ]).
Qed.

Lemma frame_handle_identity : frame _handle_identity.
Proof.
  unfold _handle_identity.
  repeat (first [ apply frame_bind; [auto with frame | intros ?]
                | solve [auto with frame] ]).
Qed.

Lemma frame_handle_request request : frame (_handle_request py_repr request).
Proof.
  unfold _handle_request, _handle_ping.
  apply frame_bind; [auto with frame | intros req_type].
  repeat (apply frame_if;
          [first [ apply frame_handle_weight | apply frame_handle_total_weight
                 | apply frame_handle_identity | auto with frame ] |]).
  auto with frame.
Qed.
End Frames.

(** ** Requests the handlers cannot process *)

Section Requests.
Variable py_repr : json -> pystr.

(** Only a dict has [get]: any other JSON value raises in the first
    line of [_handle_request]. *)
Lemma handle_request_not_object request st :
  (forall fields, request <> JObj fields) ->
  _handle_request py_repr request st = (Raise AttributeError, st).
Proof.
  intros Hshape. destruct request; try reflexivity. now destruct (Hshape fields).
Qed.

(** A request object that carries strings only is always answered. *)
Lemma handle_request_string_valued fields st :
  string_valued fields ->
  exists response, outcome (_handle_request py_repr (JObj fields)) st = Ok response.
Proof.
  intros Hstr. unfold outcome, _handle_request, dict_get. run.
  destruct (eq_str _ (lit "ping")); [eexists; reflexivity |].
  destruct (eq_str _ (lit "identity")).
  { unfold _handle_identity. run. rewrite decode_ascii_b64encode.
    eexists; reflexivity. }
  destruct (eq_str _ (lit "weight")).
  { rewrite handle_weight_object. unfold field at 1 4.
    destruct (assoc (lit "address") fields) as [v |] eqn:Haddress.
    - destruct (Hstr _ _ Haddress) as [address ->]. cbn [default from_option id].
      repeat (destruct (negb _); [eexists; reflexivity |]).
      eexists. apply resolve_weight_string_address.
    - eexists; reflexivity. }
  destruct (eq_str _ (lit "total_weight")); [| eexists; reflexivity].
  unfold _handle_total_weight, dict_get. run.
  repeat (destruct (negb _); [eexists; reflexivity |]).
  eexists; reflexivity.
Qed.
End Requests.

(** A body wrapped in the catch-all and the closing [finally] returns
    normally and leaves the socket closed. *)
Lemma caught_and_closed (body : M unit) (st : state) :
  let run_body :=
    try_finally
      (try_except body (fun e => modify (print_stderr (ErrorHandlingClient e))))
      close st in
  run_body.1 = Ok tt /\ closed (client_socket run_body.2) = true.
Proof.
  unfold try_finally, try_except.
  destruct (body st) as [[[] | e] st1]; split; reflexivity.
Qed.

(** Whatever arrives, the connection handler returns normally and has
    closed the socket. *)
Lemma handle_client_returns json_loads py_repr st :
  outcome (_handle_client json_loads py_repr) st = Ok tt
  /\ closed (client_socket (final (_handle_client json_loads py_repr) st)) = true.
Proof. unfold outcome, final, _handle_client. apply caught_and_closed. Qed.

(** C3, as the code has it: a processing error is caught at the
    connection boundary and logged, not answered.  For every decoded JSON
    value the handler returns normally and closes the socket; when the
    request handler returns, as it does on every object carrying strings,
    exactly that response is sent; when it raises, as it does on every
    value that is not an object, nothing is sent and the error is logged. *)
Theorem request_errors_logged_not_answered
        json_loads py_repr st data rest text request :
  read_loop (inbox (client_socket st)) [] = (Ok data, rest) ->
  data <> [] ->
  utf8_decode data = Ok text ->
  json_loads text = Ok request ->
  let st' := final (_handle_client json_loads py_repr) st in
  let st1 := set_client_socket (with_inbox rest) st in
  outcome (_handle_client json_loads py_repr) st = Ok tt
  /\ closed (client_socket st') = true
  /\ (forall response,
        outcome (_handle_request py_repr request) st1 = Ok response ->
        send_error (client_socket st) = None ->
        sent (client_socket st') = sent (client_socket st) ++ [wire py_repr response]
        /\ stderr st' = stderr st)
  /\ (forall e,
        outcome (_handle_request py_repr request) st1 = Raise e ->
        sent (client_socket st') = sent (client_socket st)
        /\ stderr st' = stderr st ++ [ErrorHandlingClient e])
  /\ (forall fields, request = JObj fields -> string_valued fields ->
        exists response, outcome (_handle_request py_repr request) st1 = Ok response)
  /\ ((forall fields, request <> JObj fields) ->
        outcome (_handle_request py_repr request) st1 = Raise AttributeError).
Proof.
  intros Hread Hdata Hutf Hjson st' st1.
  destruct (handle_client_returns json_loads py_repr st) as [Hok Hclosed].
  split; [exact Hok |]. split; [exact Hclosed |].
  destruct (frame_handle_request py_repr request st1) as (_ & Hsock & Hlog).
  subst st'. unfold outcome, final in *.
  destruct (_handle_request py_repr request st1) as [[response | e] st2] eqn:Hreq;
    cbn [fst snd] in *.
  - rewrite (handle_client_answered json_loads py_repr st data rest Hread Hdata
               text request response st2 Hutf Hjson Hreq). cbn [snd].
    split; [| split; [| split]].
    + intros response' [= <-] Hsend. unfold final.
      rewrite (send_response_sent py_repr response st2).
      * cbn. now rewrite Hsock, Hlog.
      * apply (handle_request_returns py_repr request st1). unfold outcome.
        now rewrite Hreq.
      * now rewrite Hsock.
    + intros e' [=].
    + intros fields -> Hstr. eauto.
    + intros Hshape. now rewrite (handle_request_not_object _ _ _ Hshape) in Hreq.
  - rewrite (handle_client_raised json_loads py_repr st data rest Hread Hdata
               text request e st2 Hutf Hjson Hreq). cbn [snd].
    split; [| split; [| split]].
    + intros response' [=].
    + intros e' [= <-]. cbn. now rewrite Hsock, Hlog.
    + intros fields -> Hstr.
      destruct (handle_request_string_valued py_repr fields st1 Hstr) as [response Hresp].
      unfold outcome in Hresp. rewrite Hreq in Hresp. discriminate.
    + intros Hshape. rewrite (handle_request_not_object _ _ _ Hshape) in Hreq.
      now injection Hreq as <- _.
Qed.

Lemma request_errors_logged_not_answered_witness :
  sent (client_socket (final (_handle_client demo_loads demo_repr)
                         (demo_state [jbytes "{'type':'ping'}"])))
    = [jbytes "{'pong': true}" ++ [x0a]]
  /\ stderr (final (_handle_client demo_loads demo_repr)
               (demo_state [jbytes "{'type':'ping'}"])) = [].
Proof.
  destruct (request_errors_logged_not_answered demo_loads demo_repr
              (demo_state [jbytes "{'type':'ping'}"])
              (jbytes "{'type':'ping'}") [] (jlit "{'type':'ping'}")
              (JObj [(lit "type", JStr (lit "ping"))]))
    as (_ & _ & Hanswered & _); try reflexivity; try discriminate.
  apply (Hanswered (JObj [(lit "pong", JBool true)])); reflexivity.
Defined.

(** C3 as stated fails: the JSON array [[1]] decodes, yet no response is
    sent for it; the [AttributeError] of [request.get] is only logged. *)
Lemma array_request_gets_no_response :
  utf8_decode (jbytes "[1]") = Ok (jlit "[1]")
  /\ demo_loads (jlit "[1]") = Ok (JArr [JInt 1])
  /\ sent (client_socket (final (_handle_client demo_loads demo_repr)
                            (demo_state [jbytes "[1]"]))) = []
  /\ length (sent (client_socket (final (_handle_client demo_loads demo_repr)
                                    (demo_state [jbytes "[1]"])))) <> 1%nat
  /\ stderr (final (_handle_client demo_loads demo_repr) (demo_state [jbytes "[1]"]))
     = [ErrorHandlingClient AttributeError].
Proof. repeat split. discriminate. Qed.

(** ** Buffers that do not decode *)

(** The only exception of the UTF-8 decoder is [UnicodeDecodeError]. *)
Lemma utf8_decode_raises (data : bytes) (e : exn) :
  utf8_decode data = Raise e -> e = UnicodeDecodeError.
Proof.
  assert (Hall : forall n (s : bytes), (length s <= n)%nat ->
                 forall e, utf8_decode s = Raise e -> e = UnicodeDecodeError).
  { clear. induction n as [| n IH]; intros s Hlen e H.
    - destruct s; [discriminate | cbn in Hlen; lia].
    - destruct s as [| b0 r0]; [discriminate |]. cbn [utf8_decode] in H.
      cbn [length] in Hlen.
      repeat match goal with
        | H : Raise _ = Raise _ |- _ => now injection H as <-
        | H : result_map _ (utf8_decode ?r) = Raise _ |- _ =>
            destruct (utf8_decode r) eqn:?; [discriminate |];
            injection H as <-; eapply IH; [| eassumption]; cbn [length] in *; lia
        | H : context [if ?c then _ else _] |- _ => destruct c
        | H : context [match continuation ?b with _ => _ end] |- _ =>
            destruct (continuation b)
        | H : context [match ?l with [] => _ | _ :: _ => _ end] |- _ => destruct l
        end. }
  apply (Hall (length data)). lia.
Qed.

(** Text that [json.loads] rejects is answered with the [bad_request]
    error whose message starts with [Invalid JSON: ]. *)
Lemma invalid_json_gets_bad_request json_loads py_repr st data rest text msg :
  read_loop (inbox (client_socket st)) [] = (Ok data, rest) ->
  data <> [] ->
  utf8_decode data = Ok text ->
  json_loads text = Raise (JSONDecodeError msg) ->
  send_error (client_socket st) = None ->
  sent (client_socket (final (_handle_client json_loads py_repr) st))
    = sent (client_socket st)
        ++ [wire py_repr
              (error_response (lit "Invalid JSON: " ++ msg) (lit "bad_request"))]
  /\ stderr (final (_handle_client json_loads py_repr) st) = stderr st.
Proof.
  intros Hread Hdata Hutf Hjson Hsend. unfold final.
  rewrite (handle_client_invalid_json json_loads py_repr st data rest Hread Hdata
             text msg Hutf Hjson).
  unfold final. rewrite send_response_sent by (reflexivity || exact Hsend).
  split; reflexivity.
Qed.

(** C2, where the code departs from it: a buffer that is not valid UTF-8
    raises [UnicodeDecodeError], which [except json.JSONDecodeError] does
    not catch; the handler returns and closes the socket, but sends no
    response and only logs the error. *)
Theorem undecodable_bytes_get_no_response json_loads py_repr st data rest e :
  read_loop (inbox (client_socket st)) [] = (Ok data, rest) ->
  data <> [] ->
  utf8_decode data = Raise e ->
  outcome (_handle_client json_loads py_repr) st = Ok tt
  /\ sent (client_socket (final (_handle_client json_loads py_repr) st))
     = sent (client_socket st)
  /\ stderr (final (_handle_client json_loads py_repr) st)
     = stderr st ++ [ErrorHandlingClient UnicodeDecodeError]
  /\ closed (client_socket (final (_handle_client json_loads py_repr) st)) = true.
Proof.
  intros Hread Hdata Hutf. unfold outcome, final.
  rewrite (utf8_decode_raises data e Hutf) in Hutf.
  rewrite (handle_client_undecodable json_loads py_repr st data rest Hread Hdata Hutf).
  repeat split.
Qed.

Lemma undecodable_bytes_get_no_response_witness :
  sent (client_socket (final (_handle_client demo_loads demo_repr)
                         (demo_state [[xff; "}"%byte]]))) = []
  /\ stderr (final (_handle_client demo_loads demo_repr) (demo_state [[xff; "}"%byte]]))
     = [ErrorHandlingClient UnicodeDecodeError].
Proof.
  destruct (undecodable_bytes_get_no_response demo_loads demo_repr
              (demo_state [[xff; "}"%byte]]) [xff; "}"%byte] [] UnicodeDecodeError)
    as (_ & Hsent & Hlog & _); try reflexivity; try discriminate.
  split; assumption.
Defined.

(** ** The lock discipline *)

Lemma set_weight_guarded address selection_id balance_round weight st :
  trace (final (set_weight address selection_id balance_round weight) st)
    = trace st ++ [Acquire; Write SharedWeightTable; Release]
  /\ weight_table (self (final (set_weight address selection_id balance_round weight) st))
     = <[address ++ lit ":" ++ selection_id ++ lit ":" ++ balance_round := weight]>
         (weight_table (self st)).
Proof.
  unfold set_weight. run. cbn. now rewrite <- !app_assoc.
Qed.

Lemma set_total_weight_guarded weight st :
  trace (final (set_total_weight weight) st)
    = trace st ++ [Acquire; Write SharedTotalWeight; Release]
  /\ total_weight (self (final (set_total_weight weight) st)) = weight.
Proof.
  unfold set_total_weight. run. cbn. now rewrite <- !app_assoc.
Qed.

Ltac trace_leaf :=
  eexists; split;
  [ cbn [trace record_event snd]; rewrite <- ?app_assoc; cbn [app];
    try reflexivity; symmetry; apply app_nil_r
  | reflexivity ].

(** Every table access of [_handle_weight] happens with the lock held,
    also when the lookup raises. *)
Lemma handle_weight_guarded py_repr request st :
  exists events,
    trace (final (_handle_weight py_repr request) st) = trace st ++ events
    /\ guarded false events = true.
Proof.
  destruct request; try trace_leaf.
  unfold final. rewrite handle_weight_object.
  repeat (destruct (negb _); [trace_leaf |]).
  unfold resolve_weight, lookup_weight. run.
  destruct (default_weight (self st)); [trace_leaf |].
  cbn [self record_event].
  destruct (table_contains _ (field fields (lit "address"))) as [[|] | e];
    [| | trace_leaf].
  - cbn [self record_event].
    destruct (table_getitem _ _) as [w | e]; trace_leaf.
  - cbn [self record_event].
    destruct (table_contains _ (JStr _)) as [[|] | e]; [| | trace_leaf].
    + cbn [self record_event]. destruct (table_getitem _ _) as [w | e]; trace_leaf.
    + destruct (sum_ord _) as [total | e]; trace_leaf.
Qed.

(** C9, where the code departs from it: [_handle_total_weight] reads the
    shared total weight without entering [with self._lock], although
    [set_total_weight] writes it under the lock. *)
Theorem total_weight_read_without_lock py_repr fields st :
  has_type fields "total_weight" ->
  truthy (field fields (lit "balance_round")) = true ->
  truthy (field fields (lit "vote_round")) = true ->
  trace (final (_handle_request py_repr (JObj fields)) st)
    = trace st ++ [Read SharedTotalWeight]
  /\ guarded false [Read SharedTotalWeight] = false.
Proof.
  intros Htype Hb Hv. unfold final.
  rewrite (dispatch_total_weight py_repr fields st Htype).
  unfold _handle_total_weight, dict_get. fold (field fields (lit "balance_round")).
  fold (field fields (lit "vote_round")). run.
  rewrite Hb, Hv. split; reflexivity.
Qed.

Lemma total_weight_read_without_lock_witness :
  trace (final (_handle_request demo_repr
                  (JObj (total_weight_request (JStr (lit "1")) (JStr (lit "2")))))
           (demo_state []))
    = [Read SharedTotalWeight]
  /\ guarded false [Read SharedTotalWeight] = false.
Proof.
  apply (total_weight_read_without_lock demo_repr
           (total_weight_request (JStr (lit "1")) (JStr (lit "2"))) (demo_state []));
    reflexivity.
Defined.

(** ** Presence is truthiness *)

Lemma falsy_values_falsy (v : json) : In v falsy_values -> truthy v = false.
Proof.
  unfold falsy_values. cbn. intros H.
  repeat (destruct H as [<- | H]; [reflexivity |]). contradiction.
Qed.

(** ... and there are no other false values. *)
Lemma falsy_in_falsy_values (v : json) : truthy v = false -> In v falsy_values.
Proof.
  unfold falsy_values.
  destruct v as [| [|] | n | [[|] | | |] | [|] | [|] | [|]]; cbn; try discriminate;
    try tauto.
  destruct (Z.eqb_spec n 0) as [-> |]; [tauto | discriminate].
Qed.

(** Without an override, an address the address table does not list is
    resolved through the composite key, and through the fallback sum
    when the weight table has no such key. *)
Lemma resolve_weight_unlisted_address py_repr address selection_id balance_round st :
  default_weight (self st) = None ->
  table_contains (address_weights (self st)) address = Ok false ->
  outcome (resolve_weight py_repr address selection_id balance_round) st
    = match weight_table (self st)
            !! composite_key py_repr address selection_id balance_round with
      | Some w => Ok (weight_response w)
      | None => result_map (fun total => weight_response (total mod 1000000))
                  (sum_ord address)
      end.
Proof.
  intros Hnone Hunlisted. unfold resolve_weight, lookup_weight. run.
  rewrite Hnone. cbn [self record_event]. rewrite Hunlisted.
  cbn [table_contains table_getitem self record_event].
  destruct (weight_table (self st) !! _) as [w |] eqn:Hkey.
  - rewrite bool_decide_eq_true_2 by eauto. look. now rewrite Hkey.
  - rewrite bool_decide_eq_false_2 by (intros [? ?]; discriminate).
    now destruct (sum_ord address).
Qed.

Lemma number_unlisted (table : gmap pystr Z) (v : json) :
  is_number v = true -> table_contains table v = Ok false /\ sum_ord v = Raise TypeError.
Proof. destruct v; try discriminate; intros _; split; reflexivity. Qed.

(** C10, as the code has it: whether a required field counts as present
    is decided by the truth value of what it holds.  A field holding 0,
    false, null, the empty string or an empty array or object is reported
    missing, for weight and for total_weight requests; truthy values of
    any type pass validation, and a weight request then runs the
    resolution stage.  What that stage does with a value that is not a
    string depends on the configuration and on the field: with an
    override the override is returned and neither the composite key nor
    the fallback sum is computed; without one, an array or object as
    address raises at the membership test on the address table, before
    the key is built; a number or boolean as address enters the composite
    key and, without an entry under that key, the fallback sum, which
    raises for it; a string address is resolved as usual, the other two
    fields entering only through the composite key, whatever their type.
    Strings, numbers and booleans, arrays and objects are all the truthy
    values there are.  A total_weight request with truthy fields is
    answered with the total weight. *)
Theorem presence_is_truthiness py_repr st :
  (forall fields v,
      has_type fields "weight" -> In v falsy_values ->
      (assoc (lit "address") fields = Some v ->
       outcome (_handle_request py_repr (JObj fields)) st = Ok (missing_field "address"))
      /\ (truthy (field fields (lit "address")) = true ->
          assoc (lit "selection_id") fields = Some v ->
          outcome (_handle_request py_repr (JObj fields)) st
            = Ok (missing_field "selection_id"))
      /\ (truthy (field fields (lit "address")) = true ->
          truthy (field fields (lit "selection_id")) = true ->
          assoc (lit "balance_round") fields = Some v ->
          outcome (_handle_request py_repr (JObj fields)) st
            = Ok (missing_field "balance_round")))
  /\ (forall fields v,
      has_type fields "total_weight" -> In v falsy_values ->
      (assoc (lit "balance_round") fields = Some v ->
       outcome (_handle_request py_repr (JObj fields)) st
         = Ok (missing_field "balance_round"))
      /\ (truthy (field fields (lit "balance_round")) = true ->
          assoc (lit "vote_round") fields = Some v ->
          outcome (_handle_request py_repr (JObj fields)) st
            = Ok (missing_field "vote_round")))
  /\ (forall fields,
      has_type fields "weight" ->
      truthy (field fields (lit "address")) = true ->
      truthy (field fields (lit "selection_id")) = true ->
      truthy (field fields (lit "balance_round")) = true ->
      _handle_request py_repr (JObj fields) st
        = resolve_weight py_repr (field fields (lit "address"))
            (field fields (lit "selection_id")) (field fields (lit "balance_round")) st
      /\ (forall weight,
          default_weight (self st) = Some weight ->
          _handle_request py_repr (JObj fields) st = (Ok (weight_response weight), st))
      /\ (default_weight (self st) = None ->
          unhashable (field fields (lit "address")) = true ->
          outcome (_handle_request py_repr (JObj fields)) st = Raise TypeError
          /\ trace (final (_handle_request py_repr (JObj fields)) st)
             = trace st ++ [Acquire; Read SharedAddressWeights; Release])
      /\ (default_weight (self st) = None ->
          is_number (field fields (lit "address")) = true ->
          outcome (_handle_request py_repr (JObj fields)) st
            = match weight_table (self st)
                    !! composite_key py_repr (field fields (lit "address"))
                         (field fields (lit "selection_id"))
                         (field fields (lit "balance_round")) with
              | Some w => Ok (weight_response w)
              | None => Raise TypeError
              end)
      /\ (forall address,
          default_weight (self st) = None ->
          field fields (lit "address") = JStr address ->
          outcome (_handle_request py_repr (JObj fields)) st
            = Ok (weight_response
                    match address_weights (self st) !! address with
                    | Some w => w
                    | None =>
                        match weight_table (self st)
                              !! composite_key py_repr (JStr address)
                                   (field fields (lit "selection_id"))
                                   (field fields (lit "balance_round")) with
                        | Some w => w
                        | None => code_point_sum address mod 1000000
                        end
                    end)))
  /\ (forall fields,
      has_type fields "total_weight" ->
      truthy (field fields (lit "balance_round")) = true ->
      truthy (field fields (lit "vote_round")) = true ->
      outcome (_handle_request py_repr (JObj fields)) st
        = Ok (total_weight_response (total_weight (self st))))
  /\ (forall v,
      truthy v = true ->
      (exists s, v = JStr s) \/ is_number v = true \/ unhashable v = true).
Proof.
  split; [| split; [| split; [| split]]].
  - intros fields v Htype Hv%falsy_values_falsy. unfold outcome.
    rewrite (dispatch_weight py_repr fields st Htype), handle_weight_object.
    split; [| split].
    + intros Ha%field_present. now rewrite Ha, Hv.
    + intros Ha Hs%field_present. now rewrite Ha, Hs, Hv.
    + intros Ha Hs Hb%field_present. now rewrite Ha, Hs, Hb, Hv.
  - intros fields v Htype Hv%falsy_values_falsy. unfold outcome.
    rewrite (dispatch_total_weight py_repr fields st Htype).
    unfold _handle_total_weight, dict_get. fold (field fields (lit "balance_round")).
    fold (field fields (lit "vote_round")). run. split.
    + intros Hb%field_present. now rewrite Hb, Hv.
    + intros Hb Hr%field_present. now rewrite Hb, Hr, Hv.
  - intros fields Htype Ha Hs Hb. unfold outcome, final.
    rewrite (dispatch_weight py_repr fields st Htype), handle_weight_object.
    rewrite Ha, Hs, Hb. cbn [negb]. split; [reflexivity |].
    split; [| split; [| split]].
    + intros weight Hweight. unfold resolve_weight. run. now rewrite Hweight.
    + intros Hnone Hunhashable. unfold resolve_weight, lookup_weight. run.
      rewrite Hnone. cbn [self record_event].
      destruct (field fields (lit "address")); try discriminate;
        cbn [table_contains fst snd trace record_event]; rewrite <- !app_assoc;
        split; reflexivity.
    + intros Hnone Hnumber.
      destruct (number_unlisted (address_weights (self st)) _ Hnumber) as [Hunlisted Hsum].
      fold (outcome (resolve_weight py_repr (field fields (lit "address"))
                       (field fields (lit "selection_id"))
                       (field fields (lit "balance_round"))) st).
      rewrite (resolve_weight_unlisted_address _ _ _ _ _ Hnone Hunlisted), Hsum.
      reflexivity.
    + intros address Hnone ->.
      fold (outcome (resolve_weight py_repr (JStr address)
                       (field fields (lit "selection_id"))
                       (field fields (lit "balance_round"))) st).
      now rewrite resolve_weight_string_address, Hnone.
  - intros fields Htype Hb Hv. unfold outcome.
    rewrite (dispatch_total_weight py_repr fields st Htype).
    unfold _handle_total_weight, dict_get. fold (field fields (lit "balance_round")).
    fold (field fields (lit "vote_round")). run. now rewrite Hb, Hv.
  - intros v Hv. destruct v; try discriminate; eauto.
Qed.

Lemma presence_is_truthiness_witness :
  outcome (_handle_request demo_repr
             (JObj (weight_request (JInt 0) (JStr (lit "x")) (JStr (lit "5")))))
    (demo_state [])
    = Ok (missing_field "address")
  /\ outcome (_handle_request demo_repr
                (JObj (total_weight_request (JStr (lit "5")) (JArr []))))
       (demo_state [])
     = Ok (missing_field "vote_round")
  /\ outcome (_handle_request demo_repr
                (JObj (weight_request (JInt 5) (JStr (lit "x")) (JInt 5))))
       (demo_state [])
     = Ok (JObj [(lit "weight", JStr (lit "9"))])
  /\ outcome (_handle_request demo_repr
                (JObj (weight_request (JInt 5) (JStr (lit "x")) (JStr (lit "6")))))
       (demo_state [])
     = Raise TypeError
  /\ trace (final (_handle_request demo_repr
                     (JObj (weight_request (JArr [JInt 1]) (JStr (lit "x")) (JStr (lit "5")))))
              (demo_state []))
     = [Acquire; Read SharedAddressWeights; Release]
  /\ _handle_request demo_repr
       (JObj (weight_request (JInt 5) (JStr (lit "x")) (JStr (lit "5")))) override_state
     = (Ok (JObj [(lit "weight", JStr (lit "3"))]), override_state)
  /\ outcome (_handle_request demo_repr
                (JObj (weight_request (JStr (lit "B2")) (JStr (lit "x")) (JStr (lit "5")))))
       (demo_state [])
     = Ok (JObj [(lit "weight", JStr (lit "7"))])
  /\ outcome (_handle_request demo_repr (JObj (total_weight_request (JInt 5) (JBool true))))
       (demo_state [])
     = Ok (JObj [(lit "total_weight", JStr (lit "1000000"))]).
Proof.
  destruct (presence_is_truthiness demo_repr (demo_state []))
    as (Hweight & Htotal & Hpass & Htotal_pass & _).
  destruct (presence_is_truthiness demo_repr override_state)
    as (_ & _ & Hoverride & _).
  split; [| split; [| split; [| split; [| split; [| split; [| split]]]]]].
  - apply (Hweight (weight_request (JInt 0) (JStr (lit "x")) (JStr (lit "5"))) (JInt 0));
      [reflexivity | now left | reflexivity].
  - apply (Htotal (total_weight_request (JStr (lit "5")) (JArr [])) (JArr []));
      [reflexivity | cbn; tauto | reflexivity | reflexivity].
  - pose proof (Hpass (weight_request (JInt 5) (JStr (lit "x")) (JInt 5))
                  eq_refl eq_refl eq_refl eq_refl) as (_ & _ & _ & Hnumber & _).
    apply Hnumber; reflexivity.
  - pose proof (Hpass (weight_request (JInt 5) (JStr (lit "x")) (JStr (lit "6")))
                  eq_refl eq_refl eq_refl eq_refl) as (_ & _ & _ & Hnumber & _).
    apply Hnumber; reflexivity.
  - pose proof (Hpass (weight_request (JArr [JInt 1]) (JStr (lit "x")) (JStr (lit "5")))
                  eq_refl eq_refl eq_refl eq_refl) as (_ & _ & Hunhashable & _).
    apply Hunhashable; reflexivity.
  - pose proof (Hoverride (weight_request (JInt 5) (JStr (lit "x")) (JStr (lit "5")))
                  eq_refl eq_refl eq_refl eq_refl) as (_ & Hanswer & _).
    apply (Hanswer 3). reflexivity.
  - pose proof (Hpass (weight_request (JStr (lit "B2")) (JStr (lit "x")) (JStr (lit "5")))
                  eq_refl eq_refl eq_refl eq_refl) as (_ & _ & _ & _ & Hstring).
    apply (Hstring (lit "B2")); reflexivity.
  - apply (Htotal_pass (total_weight_request (JInt 5) (JBool true))); reflexivity.
Defined.

(** C10 as stated fails: a truthy value that is not a string need not
    reach the composite key or the fallback sum.  The array holding the
    string a is truthy and its fallback sum would be 97, yet as an address
    it raises at the address table, with the weight table never read; and
    under an override the address 5 gets the override although the weight
    table holds 9 under the key 5:x:5. *)
Lemma truthy_address_reaches_no_key :
  truthy (JArr [JStr (lit "a")]) = true
  /\ sum_ord (JArr [JStr (lit "a")]) = Ok 97
  /\ outcome (_handle_request demo_repr
                (JObj (weight_request (JArr [JStr (lit "a")]) (JStr (lit "x"))
                         (JStr (lit "5")))))
       (demo_state [])
     = Raise TypeError
  /\ trace (final (_handle_request demo_repr
                     (JObj (weight_request (JArr [JStr (lit "a")]) (JStr (lit "x"))
                              (JStr (lit "5")))))
              (demo_state []))
     = [Acquire; Read SharedAddressWeights; Release]
  /\ truthy (JInt 5) = true
  /\ weight_table (self override_state)
       !! composite_key demo_repr (JInt 5) (JStr (lit "x")) (JStr (lit "5")) = Some 9
  /\ _handle_request demo_repr
       (JObj (weight_request (JInt 5) (JStr (lit "x")) (JStr (lit "5")))) override_state
     = (Ok (JObj [(lit "weight", JStr (lit "3"))]), override_state).
Proof. repeat split. Qed.

(** ** The mutators and the lookup agree *)

(** After [set_weight], a weight request for the same triple is answered
    with the weight that was set, unless the override or the address
    table decides first. *)
Lemma set_weight_then_lookup py_repr address selection_id balance_round weight st :
  default_weight (self st) = None ->
  address_weights (self st) !! address = None ->
  outcome (resolve_weight py_repr (JStr address) (JStr selection_id) (JStr balance_round))
    (final (set_weight address selection_id balance_round weight) st)
    = Ok (weight_response weight).
Proof.
  intros Hnone Haddr. rewrite resolve_weight_string_address.
  unfold set_weight. run.
  cbn [self set_self record_event with_weight_table default_weight address_weights
         weight_table].
  rewrite Hnone, Haddr. unfold composite_key. cbn [py_str].
  now rewrite lookup_insert_eq.
Qed.

(** After [set_total_weight], a total_weight request reports the new
    total. *)
Lemma set_total_weight_then_lookup py_repr fields weight st :
  has_type fields "total_weight" ->
  truthy (field fields (lit "balance_round")) = true ->
  truthy (field fields (lit "vote_round")) = true ->
  outcome (_handle_request py_repr (JObj fields)) (final (set_total_weight weight) st)
    = Ok (total_weight_response weight).
Proof.
  intros Htype Hb Hv. unfold outcome.
  rewrite (dispatch_total_weight py_repr fields _ Htype).
  unfold _handle_total_weight, dict_get. fold (field fields (lit "balance_round")).
  fold (field fields (lit "vote_round")). run. now rewrite Hb, Hv.
Qed.

(** ** Worked examples, byte for byte *)

Example ping_end_to_end :
  sent (client_socket (final (_handle_client demo_loads demo_repr)
                         (demo_state [jbytes "{'type':'ping'}"])))
    = [jbytes "{'pong': true}" ++ [x0a]].
Proof. reflexivity. Qed.

(** The request may arrive in pieces; what follows the first closing
    brace is not read. *)
Example ping_in_two_chunks :
  let st := final (_handle_client demo_loads demo_repr)
              (demo_state [jbytes "{'type':"; jbytes "'ping'}"; jbytes "{'type':'bogus'}"]) in
  sent (client_socket st) = [jbytes "{'pong': true}" ++ [x0a]]
  /\ inbox (client_socket st) = [Ok (jbytes "{'type':'bogus'}")].
Proof. split; reflexivity. Qed.

Example address_table_end_to_end :
  sent (client_socket
          (final (_handle_client demo_loads demo_repr)
             (demo_state
                [jbytes "{'type':'weight','address':'A1','selection_id':'x','balance_round':'5'}"])))
    = [jbytes "{'weight': '1000000'}" ++ [x0a]].
Proof. reflexivity. Qed.

Example fallback_end_to_end :
  sent (client_socket
          (final (_handle_client demo_loads demo_repr)
             (demo_state
                [jbytes "{'type':'weight','address':'ZZ','selection_id':'x','balance_round':'5'}"])))
    = [jbytes "{'weight': '180'}" ++ [x0a]].
Proof. reflexivity. Qed.

Example bogus_end_to_end :
  sent (client_socket (final (_handle_client demo_loads demo_repr)
                         (demo_state [jbytes "{'type':'bogus'}"])))
    = [jbytes "{'error': 'Unknown request type: bogus', 'code': 'unsupported'}" ++ [x0a]].
Proof. reflexivity. Qed.

Example not_json_end_to_end :
  sent (client_socket (final (_handle_client demo_loads demo_repr)
                         (demo_state [jbytes "nonsense}"])))
    = [jbytes "{'error': 'Invalid JSON: Expecting value: line 1 column 1 (char 0)', 'code': 'bad_request'}"
         ++ [x0a]].
Proof. reflexivity. Qed.

(** ** Parsing the genesis hash *)

Lemma byte_of_N_to_N (b : byte) : byte_of_N (Byte.to_N b) = b.
Proof. unfold byte_of_N. now rewrite Byte.of_to_N. Qed.

Lemma hex_value_hex_digit (n : N) : (n < 16)%N -> hex_value (hex_digit n) = Some n.
Proof.
  intros Hn.
  assert (H : forallb (fun k => bool_decide
                (hex_value (hex_digit (N.of_nat k)) = Some (N.of_nat k))) (seq 0 16) = true)
    by (vm_compute; reflexivity).
  rewrite forallb_forall in H. specialize (H (N.to_nat n)).
  rewrite N2Nat.id in H. apply bool_decide_eq_true in H; [assumption |].
  apply in_seq. lia.
Qed.

Lemma is_space_hex_digit (n : N) : (n < 16)%N -> is_space (hex_digit n) = false.
Proof.
  intros Hn.
  assert (H : forallb (fun k => negb (is_space (hex_digit (N.of_nat k)))) (seq 0 16) = true)
    by (vm_compute; reflexivity).
  rewrite forallb_forall in H. specialize (H (N.to_nat n)).
  rewrite N2Nat.id in H. apply negb_true_iff, H, in_seq. lia.
Qed.

Lemma fromhex_hex (h : bytes) : fromhex (hex h) = Some h.
Proof.
  induction h as [| b h IH]; [reflexivity |].
  pose proof (Byte.to_N_bounded b) as Hb.
  cbn [hex flat_map app fromhex]. fold (hex h).
  rewrite is_space_hex_digit, !hex_value_hex_digit by divlia.
  replace (Byte.to_N b / 16 * 16 + Byte.to_N b mod 16)%N with (Byte.to_N b) by divlia.
  now rewrite IH, byte_of_N_to_N.
Qed.

Lemma length_hex (h : bytes) : length (hex h) = (2 * length h)%nat.
Proof. induction h as [| b h IH]; [reflexivity |]. cbn [hex flat_map app length]. fold (hex h). lia. Qed.

(** X15: [parse_genesis_hash] reads the 64 hexadecimal digits of a
    32-byte hash back as that hash. *)
Theorem parse_genesis_hash_hex (h : bytes) :
  length h = 32%nat -> parse_genesis_hash (hex h) = Some h.
Proof.
  intros Hlen. unfold parse_genesis_hash.
  rewrite length_hex, Hlen. cbn [Nat.mul Nat.add Nat.eqb].
  now rewrite fromhex_hex.
Qed.

Lemma parse_genesis_hash_hex_witness :
  parse_genesis_hash (hex (genesis_hash demo_daemon)) = Some (genesis_hash demo_daemon).
Proof. apply (parse_genesis_hash_hex (genesis_hash demo_daemon)). reflexivity. Defined.

Lemma hex_value_not_space (d v : N) : hex_value d = Some v -> is_space d = false.
Proof.
  unfold hex_value, is_space. intros Hd.
  destruct (N.eqb_spec d 32) as [-> | Hne]; [discriminate |]. cbn [orb].
  destruct (N.leb_spec 9 d) as [Hlo |]; [| reflexivity].
  destruct (N.leb_spec d 13) as [Hhi |]; [| reflexivity].
  exfalso. revert Hd.
  replace (48 <=? d)%N with false by (symmetry; apply N.leb_gt; lia).
  replace (97 <=? d)%N with false by (symmetry; apply N.leb_gt; lia).
  replace (65 <=? d)%N with false by (symmetry; apply N.leb_gt; lia).
  discriminate.
Qed.

Lemma fromhex_length (s : pystr) (h : bytes) :
  fromhex s = Some h ->
  (2 * length h + length (List.filter is_space s) = length s)%nat.
Proof.
  assert (Hall : forall n (s : pystr), (length s <= n)%nat -> forall h,
             fromhex s = Some h ->
             (2 * length h + length (List.filter is_space s) = length s)%nat).
  { clear. induction n as [| n IH]; intros s Hlen h Hs.
    - destruct s; [| cbn in Hlen; lia]. now injection Hs as <-.
    - destruct s as [| c rest]; [now injection Hs as <- |].
      cbn [fromhex] in Hs. cbn [List.filter length] in *.
      destruct (is_space c).
      + cbn [length]. specialize (IH rest ltac:(lia) h Hs). lia.
      + destruct (hex_value c) as [top |]; [| discriminate].
        destruct rest as [| d rest]; [discriminate |].
        destruct (hex_value d) as [bot |] eqn:Hd; [| discriminate].
        destruct (fromhex rest) as [tail |] eqn:Htail; [| discriminate].
        injection Hs as <-. cbn [List.filter length] in *.
        pose proof (hex_value_not_space d bot Hd) as Hnot.
        rewrite Hnot. specialize (IH rest ltac:(lia) tail Htail). lia. }
  apply (Hall (length s)). lia.
Qed.

Lemma filter_none_spaces (s : pystr) :
  existsb is_space s = false -> length (List.filter is_space s) = 0%nat.
Proof.
  induction s as [| c s IH]; [reflexivity |]. cbn [existsb List.filter].
  intros [Hc Hs]%orb_false_iff. rewrite Hc. auto.
Qed.

(** X17: a hash [parse_genesis_hash] returns has 32 bytes, unless the
    argument is 64 characters long and contains whitespace: it is then
    read as hexadecimal and comes out shorter, unchecked. *)
Theorem parse_genesis_hash_length (s : pystr) (h : bytes) :
  parse_genesis_hash s = Some h ->
  length h = 32%nat
  \/ (length s = 64%nat /\ existsb is_space s = true /\ fromhex s = Some h
      /\ (length h < 32)%nat).
Proof.
  unfold parse_genesis_hash. intros Hparse.
  assert (Hbase64 :
            match base64_b64decode s with
            | Some decoded => if (length decoded =? 32)%nat then Some decoded else None
            | None => None
            end = Some h -> length h = 32%nat).
  { destruct (base64_b64decode s) as [decoded |]; [| discriminate].
    destruct (Nat.eqb_spec (length decoded) 32); [| discriminate].
    now intros [= <-]. }
  destruct (Nat.eqb_spec (length s) 64) as [Hlen |]; [| auto].
  destruct (fromhex s) as [decoded |] eqn:Hhex; [| auto].
  injection Hparse as <-. pose proof (fromhex_length s decoded Hhex) as Hcount.
  destruct (existsb is_space s) eqn:Hspace.
  - destruct (List.filter is_space s) as [| c spaces] eqn:Hfilter.
    + left. cbn [length] in Hcount. lia.
    + right. cbn [length] in Hcount. repeat split; [assumption | lia].
  - left. rewrite (filter_none_spaces s Hspace) in Hcount. lia.
Qed.

Lemma parse_genesis_hash_length_witness :
  length (byte_of_N <$> replicate 31 0%N) = 32%nat
  \/ (length (replicate 62 48%N ++ [32; 32]%N) = 64%nat
      /\ existsb is_space (replicate 62 48%N ++ [32; 32]%N) = true
      /\ fromhex (replicate 62 48%N ++ [32; 32]%N) = Some (byte_of_N <$> replicate 31 0%N)
      /\ (length (byte_of_N <$> replicate 31 0%N) < 32)%nat).
Proof.
  apply (parse_genesis_hash_length (replicate 62 48%N ++ [32; 32]%N)
           (byte_of_N <$> replicate 31 0%N)).
  reflexivity.
Defined.

Lemma length_b64encode (s : bytes) :
  length (b64encode s) = (4 * ((length s + 2) / 3))%nat.
Proof.
  induction s as [| a | a b | a b c s IH] using list_ind3; try reflexivity.
  cbn [b64encode length]. rewrite IH.
  replace (S (S (S (length s))) + 2)%nat with (1 * 3 + (length s + 2))%nat by lia.
  rewrite Nat.div_add_l by discriminate. lia.
Qed.

Lemma encode_ascii_b64encode (s : bytes) :
  encode_ascii (Byte.to_N <$> b64encode s) = Some (b64encode s).
Proof.
  assert (Hall : forall t : bytes, Forall (fun b => (Byte.to_N b <? 128)%N = true) t ->
                                   encode_ascii (Byte.to_N <$> t) = Some t).
  { induction 1 as [| b t Hb _ IH]; [reflexivity |].
    cbn [fmap list_fmap encode_ascii]. rewrite Hb.
    change (list_fmap byte N Byte.to_N t) with (Byte.to_N <$> t).
    now rewrite IH, byte_of_N_to_N. }
  apply Hall.
  induction s as [| a | a b | a b c s IH] using list_ind3; cbn [b64encode];
    repeat constructor; try apply b64_char_ascii; assumption.
Qed.

(** The library decoder reads back what the encoder writes. *)
Lemma a2b_base64_b64encode (s : bytes) : a2b_base64 0 0 0 (b64encode s) = Some s.
Proof.
  induction s as [| a | a b | a b c s IH] using list_ind3.
  - reflexivity.
  - pose proof (Byte.to_N_bounded a) as Ha.
    cbn [b64encode a2b_base64].
    rewrite !b64_char_not_pad, !b64_index_char by divlia. cbn [N.eqb Pos.eqb].
    change (is_pad (Byte.to_N b64_pad)) with true. cbn.
    replace (_ + _)%N with (Byte.to_N a) by divlia.
    now rewrite byte_of_N_to_N.
  - pose proof (Byte.to_N_bounded a) as Ha. pose proof (Byte.to_N_bounded b) as Hb.
    cbn [b64encode a2b_base64].
    rewrite !b64_char_not_pad, !b64_index_char by divlia. cbn [N.eqb Pos.eqb].
    change (is_pad (Byte.to_N b64_pad)) with true. cbn.
    replace (_ / 4 * 4 + _)%N with (Byte.to_N a) by divlia.
    replace (_ * 16 + _)%N with (Byte.to_N b) by divlia.
    now rewrite !byte_of_N_to_N.
  - pose proof (Byte.to_N_bounded a) as Ha. pose proof (Byte.to_N_bounded b) as Hb.
    pose proof (Byte.to_N_bounded c) as Hc.
    cbn [b64encode a2b_base64].
    rewrite !b64_char_not_pad, !b64_index_char by divlia. cbn [N.eqb Pos.eqb].
    rewrite IH. cbn [fmap option_fmap option_map].
    replace (_ / 4 * 4 + _)%N with (Byte.to_N a) by divlia.
    replace (_ * 16 + _)%N with (Byte.to_N b) by divlia.
    replace (_ * 64 + _)%N with (Byte.to_N c) by divlia.
    now rewrite !byte_of_N_to_N.
Qed.

(** The base64 text of a 32-byte hash is read back as that hash. *)
Lemma parse_genesis_hash_base64 (h : bytes) :
  length h = 32%nat -> parse_genesis_hash (Byte.to_N <$> b64encode h) = Some h.
Proof.
  intros Hlen. unfold parse_genesis_hash, base64_b64decode.
  rewrite length_fmap, length_b64encode, Hlen.
  change ((4 * ((32 + 2) / 3) =? 64)%nat) with false. cbv iota.
  rewrite encode_ascii_b64encode. cbn [mbind option_bind].
  now rewrite a2b_base64_b64encode, Hlen.
Qed.

(** X16: the genesis_hash field of an identity response, given to
    [parse_genesis_hash], yields the configured genesis hash when that has
    32 bytes. *)
Theorem identity_hash_parses_back py_repr fields st :
  has_type fields "identity" ->
  length (genesis_hash (self st)) = 32%nat ->
  exists encoded,
    outcome (_handle_request py_repr (JObj fields)) st
      = Ok (JObj [(lit "genesis_hash", JStr encoded);
                  (lit "protocol_version", JStr (protocol_version (self st)));
                  (lit "algorithm_version", JStr (algorithm_version (self st)))])
    /\ parse_genesis_hash encoded = Some (genesis_hash (self st)).
Proof.
  intros Htype Hlen. exists (Byte.to_N <$> b64encode (genesis_hash (self st))). split.
  - unfold outcome. rewrite (dispatch_identity py_repr fields st Htype).
    unfold _handle_identity. run. now rewrite decode_ascii_b64encode.
  - now apply parse_genesis_hash_base64.
Qed.

Lemma identity_hash_parses_back_witness :
  exists encoded,
    outcome (_handle_request demo_repr (JObj [(lit "type", JStr (lit "identity"))]))
      (demo_state [])
      = Ok (JObj [(lit "genesis_hash", JStr encoded);
                  (lit "protocol_version", JStr (lit "1.0"));
                  (lit "algorithm_version", JStr (lit "1.0"))])
    /\ parse_genesis_hash encoded = Some (genesis_hash demo_daemon).
Proof.
  apply (identity_hash_parses_back demo_repr [(lit "type", JStr (lit "identity"))]
           (demo_state [])); reflexivity.
Defined.

(** ** What goes over the wire *)

Lemma is_printable_text_app (s t : pystr) :
  is_printable_text (s ++ t) = is_printable_text s && is_printable_text t.
Proof. apply forallb_app. Qed.

Lemma hex_digit_printable (n : N) :
  (n < 16)%N -> ((32 <=? hex_digit n) && (hex_digit n <=? 126))%N = true.
Proof.
  intros Hn. unfold hex_digit. apply andb_true_iff.
  destruct (n <? 10)%N; split; apply N.leb_le; lia.
Qed.

Lemma unicode_escape_printable (n : N) : is_printable_text (unicode_escape n) = true.
Proof.
  unfold unicode_escape, is_printable_text. cbn [forallb].
  rewrite !hex_digit_printable by (apply N.mod_lt; discriminate). reflexivity.
Qed.

Lemma escape_char_printable (cp : N) : is_printable_text (escape_char cp) = true.
Proof.
  unfold escape_char.
  repeat (destruct (cp =? _)%N; [reflexivity |]).
  destruct ((32 <=? cp) && (cp <=? 126))%N eqn:Hprintable.
  - cbn [is_printable_text forallb]. now rewrite Hprintable.
  - destruct (cp <? 65536)%N; [apply unicode_escape_printable |].
    cbv zeta. now rewrite is_printable_text_app, !unicode_escape_printable.
Qed.

Lemma encode_basestring_printable (s : pystr) :
  is_printable_text (encode_basestring_ascii s) = true.
Proof.
  unfold encode_basestring_ascii. rewrite !is_printable_text_app.
  replace (is_printable_text (flat_map escape_char s)) with true; [reflexivity |].
  induction s as [| cp s IH]; [reflexivity |].
  cbn [flat_map]. now rewrite is_printable_text_app, escape_char_printable, <- IH.
Qed.

Lemma is_printable_text_join (separator : pystr) (parts : list pystr) :
  is_printable_text separator = true ->
  Forall (fun part => is_printable_text part = true) parts ->
  is_printable_text (join separator parts) = true.
Proof.
  intros Hsep Hparts. induction Hparts as [| part parts Hpart _ IH]; [reflexivity |].
  cbn [join]. destruct parts as [| next parts]; [exact Hpart |].
  now rewrite !is_printable_text_app, Hpart, Hsep, IH.
Qed.

Lemma json_dumps_flat_printable py_repr response :
  flat response = true -> is_printable_text (json_dumps py_repr response) = true.
Proof.
  destruct response as [| | | | | | fields]; try discriminate. cbn [flat json_dumps].
  intros Hflat. rewrite !is_printable_text_app, is_printable_text_join; [reflexivity .. |].
  induction fields as [| [k v] fields IH]; [constructor |].
  cbn [forallb] in Hflat. apply andb_true_iff in Hflat as [Hv Hflat].
  constructor; [| exact (IH Hflat)].
  rewrite !is_printable_text_app, encode_basestring_printable.
  destruct v as [| [|] | | | s | |]; try discriminate; cbn [json_dumps snd];
    rewrite ?encode_basestring_printable; reflexivity.
Qed.

Lemma is_printable_bytes (s : pystr) :
  is_printable_text s = true -> is_printable (byte_of_N <$> s) = true.
Proof.
  induction s as [| cp s IH]; [reflexivity |]. cbn [is_printable_text forallb].
  intros [Hcp Hs]%andb_true_iff. cbn [fmap list_fmap is_printable forallb].
  assert (Hlt : (cp < 256)%N).
  { apply andb_true_iff in Hcp as [_ Hle%N.leb_le]. lia. }
  rewrite (to_N_byte_of_N cp Hlt), Hcp. exact (IH Hs).
Qed.

(** A flat response travels as one line of printable ASCII. *)
Lemma wire_line py_repr response :
  flat response = true ->
  exists line, wire py_repr response = line ++ [x0a] /\ is_printable line = true.
Proof.
  intros Hflat. exists (byte_of_N <$> json_dumps py_repr response). split.
  - unfold wire. now rewrite fmap_app.
  - now apply is_printable_bytes, json_dumps_flat_printable.
Qed.

Lemma send_response_effect py_repr response st :
  flat response = true ->
  self (final (_send_response py_repr response) st) = self st
  /\ closed (client_socket (final (_send_response py_repr response) st))
     = closed (client_socket st)
  /\ (sent (client_socket (final (_send_response py_repr response) st))
      = sent (client_socket st)
      \/ sent (client_socket (final (_send_response py_repr response) st))
         = sent (client_socket st) ++ [wire py_repr response]).
Proof.
  intros Hflat. unfold final, _send_response, sendall. run.
  rewrite (payload_flat py_repr response Hflat).
  destruct (send_error (client_socket st)); cbn; auto.
Qed.

Lemma handle_client_recv_failed json_loads py_repr st e rest :
  read_loop (inbox (client_socket st)) [] = (Raise e, rest) ->
  _handle_client json_loads py_repr st
    = (Ok tt, set_client_socket with_closed
                (print_stderr (ErrorHandlingClient e)
                   (set_client_socket (with_inbox rest) st))).
Proof.
  intros Hread. unfold _handle_client, except_JSONDecodeError. run.
  now rewrite read_data_run, Hread.
Qed.

Lemma handle_client_no_data json_loads py_repr st rest :
  read_loop (inbox (client_socket st)) [] = (Ok [], rest) ->
  _handle_client json_loads py_repr st
    = (Ok tt, set_client_socket with_closed (set_client_socket (with_inbox rest) st)).
Proof.
  intros Hread. unfold _handle_client, except_JSONDecodeError. run.
  now rewrite read_data_run, Hread.
Qed.

Lemma handle_client_loads_raised json_loads py_repr st data rest text e :
  read_loop (inbox (client_socket st)) [] = (Ok data, rest) ->
  data <> [] ->
  utf8_decode data = Ok text ->
  json_loads text = Raise e ->
  (forall msg, e <> JSONDecodeError msg) ->
  _handle_client json_loads py_repr st
    = (Ok tt, set_client_socket with_closed
                (print_stderr (ErrorHandlingClient e)
                   (set_client_socket (with_inbox rest) st))).
Proof.
  intros Hread Hdata Hutf Hjson Hother. unfold _handle_client, except_JSONDecodeError. run.
  rewrite read_data_run, Hread. cbn [fst snd].
  destruct data as [| b data']; [contradiction |].
  rewrite Hutf, Hjson. destruct e; try reflexivity. now destruct (Hother msg).
Qed.

(** X1: whatever arrives on a connection, the handler returns normally,
    closes the socket, leaves the daemon as it was and sends at most one
    payload; a payload is one line of printable ASCII ended by a newline. *)
Theorem one_line_per_connection json_loads py_repr st :
  outcome (_handle_client json_loads py_repr) st = Ok tt
  /\ closed (client_socket (final (_handle_client json_loads py_repr) st)) = true
  /\ self (final (_handle_client json_loads py_repr) st) = self st
  /\ (sent (client_socket (final (_handle_client json_loads py_repr) st))
      = sent (client_socket st)
      \/ exists line,
          sent (client_socket (final (_handle_client json_loads py_repr) st))
            = sent (client_socket st) ++ [line ++ [x0a]]
          /\ is_printable line = true).
Proof.
  destruct (handle_client_returns json_loads py_repr st) as [Hok Hclosed].
  split; [exact Hok |]. split; [exact Hclosed |].
  assert (Hsend : forall response st1,
             flat response = true ->
             self st1 = self st -> sent (client_socket st1) = sent (client_socket st) ->
             self (set_client_socket with_closed
                     (final (_send_response py_repr response) st1)) = self st
             /\ (sent (client_socket (set_client_socket with_closed
                                        (final (_send_response py_repr response) st1)))
                 = sent (client_socket st)
                 \/ exists line,
                     sent (client_socket (set_client_socket with_closed
                                            (final (_send_response py_repr response) st1)))
                       = sent (client_socket st) ++ [line ++ [x0a]]
                     /\ is_printable line = true)).
  { intros response st1 Hflat Hself Hsent.
    destruct (send_response_effect py_repr response st1 Hflat) as (Hs & _ & Hwire).
    cbn [set_client_socket self client_socket with_closed sent].
    split; [congruence |].
    destruct Hwire as [Hsame | Hone]; [left; congruence | right].
    destruct (wire_line py_repr response Hflat) as (line & Hline & Hprintable).
    exists line. split; [| exact Hprintable]. now rewrite Hone, Hsent, Hline. }
  unfold final at 1 2 3.
  destruct (read_loop (inbox (client_socket st)) []) as [[data | e] rest] eqn:Hread;
    [| rewrite (handle_client_recv_failed _ _ _ _ _ Hread); split; [reflexivity | now left]].
  destruct data as [| b data];
    [rewrite (handle_client_no_data _ _ _ _ Hread); split; [reflexivity | now left] |].
  assert (Hdata : b :: data <> []) by discriminate.
  destruct (utf8_decode (b :: data)) as [text | e] eqn:Hutf.
  2:{ rewrite (utf8_decode_raises _ _ Hutf) in Hutf.
      rewrite (handle_client_undecodable json_loads py_repr st _ rest Hread Hdata Hutf).
      split; [reflexivity | now left]. }
  set (st1 := set_client_socket (with_inbox rest) st).
  destruct (json_loads text) as [request | e] eqn:Hjson.
  - pose proof (frame_handle_request py_repr request st1) as (Hself & Hsock & _).
    pose proof (handle_request_returns py_repr request st1) as Hflat.
    unfold final, outcome in Hself, Hsock, Hflat.
    destruct (_handle_request py_repr request st1) as [[response | e] st2] eqn:Hreq;
      cbn [fst snd] in *.
    + rewrite (handle_client_answered json_loads py_repr st _ rest Hread Hdata
                 text request response st2 Hutf Hjson Hreq). cbn [snd].
      apply Hsend; [now apply Hflat | exact Hself | now rewrite Hsock].
    + rewrite (handle_client_raised json_loads py_repr st _ rest Hread Hdata
                 text request e st2 Hutf Hjson Hreq). cbn [snd].
      split; [exact Hself | left; cbn; now rewrite Hsock].
  - destruct e as [msg | | | | | | |];
      try (rewrite (handle_client_loads_raised json_loads py_repr st _ rest text _
                      Hread Hdata Hutf Hjson) by discriminate;
           split; [reflexivity | now left]).
    rewrite (handle_client_invalid_json json_loads py_repr st _ rest Hread Hdata
               text msg Hutf Hjson). cbn [snd].
    apply Hsend; reflexivity.
Qed.

Lemma dispatch_ping py_repr fields st :
  has_type fields "ping" ->
  _handle_request py_repr (JObj fields) st = (Ok (JObj [(lit "pong", JBool true)]), st).
Proof.
  intros Htype. unfold _handle_request, dict_get. run. now rewrite Htype.
Qed.

(** X2: a connection that delivers a JSON object of type ping, whatever
    else the object holds, is answered with the one line
    [{'pong': true}] (apostrophes standing for quotation marks); nothing is
    logged, no table is touched and the daemon is unchanged. *)
Theorem ping_is_answered json_loads py_repr st data rest text fields :
  read_loop (inbox (client_socket st)) [] = (Ok data, rest) ->
  data <> [] ->
  utf8_decode data = Ok text ->
  json_loads text = Ok (JObj fields) ->
  has_type fields "ping" ->
  send_error (client_socket st) = None ->
  sent (client_socket (final (_handle_client json_loads py_repr) st))
    = sent (client_socket st) ++ [jbytes "{'pong': true}" ++ [x0a]]
  /\ stderr (final (_handle_client json_loads py_repr) st) = stderr st
  /\ trace (final (_handle_client json_loads py_repr) st) = trace st
  /\ self (final (_handle_client json_loads py_repr) st) = self st.
Proof.
  intros Hread Hdata Hutf Hjson Htype Hsend. unfold final.
  rewrite (handle_client_answered json_loads py_repr st data rest Hread Hdata text
             (JObj fields) (JObj [(lit "pong", JBool true)])
             (set_client_socket (with_inbox rest) st) Hutf Hjson
             (dispatch_ping py_repr fields _ Htype)).
  unfold final. rewrite send_response_sent by (reflexivity || exact Hsend).
  repeat split.
Qed.

Lemma ping_is_answered_witness :
  sent (client_socket (final (_handle_client demo_loads demo_repr)
                         (demo_state [jbytes "{'type':'ping'}"])))
    = [] ++ [jbytes "{'pong': true}" ++ [x0a]]
  /\ stderr (final (_handle_client demo_loads demo_repr)
               (demo_state [jbytes "{'type':'ping'}"])) = []
  /\ trace (final (_handle_client demo_loads demo_repr)
              (demo_state [jbytes "{'type':'ping'}"])) = []
  /\ self (final (_handle_client demo_loads demo_repr)
             (demo_state [jbytes "{'type':'ping'}"])) = demo_daemon.
Proof.
  apply (ping_is_answered demo_loads demo_repr (demo_state [jbytes "{'type':'ping'}"])
           (jbytes "{'type':'ping'}") [] (jlit "{'type':'ping'}")
           [(lit "type", JStr (lit "ping"))]); try reflexivity. discriminate.
Defined.

Lemma has_brace_app (data more : bytes) :
  has_brace (data ++ more) = has_brace data || has_brace more.
Proof. apply existsb_app. Qed.

(** The read loop passes on the exception of a [recv] that fails before
    a closing brace has arrived. *)
Lemma read_loop_raises (chunks : list bytes) (data : bytes) e rest :
  Forall (fun chunk => chunk <> []) chunks ->
  has_brace (data ++ concat chunks) = false ->
  read_loop ((Ok <$> chunks) ++ Raise e :: rest) data = (Raise e, rest).
Proof.
  intros Hchunks. revert data.
  induction Hchunks as [| chunk chunks Hchunk _ IH]; intros data Hbrace; [reflexivity |].
  cbn [fmap list_fmap app read_loop]. destruct chunk as [| b chunk]; [contradiction |].
  cbn [concat] in Hbrace. rewrite app_assoc in Hbrace.
  pose proof Hbrace as Hprefix. rewrite has_brace_app in Hprefix.
  apply orb_false_iff in Hprefix as [-> _]. now apply IH.
Qed.

(** X3: when [recv] raises before the buffer holds a closing brace, what
    was received so far is dropped: nothing is sent, the exception is
    logged as an error handling the client, the socket is closed and the
    handler returns normally. *)
Theorem recv_failure_discards_request json_loads py_repr st chunks e rest :
  inbox (client_socket st) = (Ok <$> chunks) ++ Raise e :: rest ->
  Forall (fun chunk => chunk <> []) chunks ->
  has_brace (concat chunks) = false ->
  outcome (_handle_client json_loads py_repr) st = Ok tt
  /\ sent (client_socket (final (_handle_client json_loads py_repr) st))
     = sent (client_socket st)
  /\ stderr (final (_handle_client json_loads py_repr) st)
     = stderr st ++ [ErrorHandlingClient e]
  /\ inbox (client_socket (final (_handle_client json_loads py_repr) st)) = rest
  /\ closed (client_socket (final (_handle_client json_loads py_repr) st)) = true
  /\ self (final (_handle_client json_loads py_repr) st) = self st.
Proof.
  intros Hinbox Hchunks Hbrace. unfold outcome, final.
  rewrite (handle_client_recv_failed json_loads py_repr st e rest).
  - repeat split.
  - rewrite Hinbox. now apply read_loop_raises.
Qed.

Lemma recv_failure_discards_request_witness :
  let st := set_client_socket (with_inbox [Ok (jbytes "{'type':"); Raise OSError])
              (demo_state []) in
  outcome (_handle_client demo_loads demo_repr) st = Ok tt
  /\ sent (client_socket (final (_handle_client demo_loads demo_repr) st))
     = sent (client_socket st)
  /\ stderr (final (_handle_client demo_loads demo_repr) st)
     = stderr st ++ [ErrorHandlingClient OSError]
  /\ inbox (client_socket (final (_handle_client demo_loads demo_repr) st)) = []
  /\ closed (client_socket (final (_handle_client demo_loads demo_repr) st)) = true
  /\ self (final (_handle_client demo_loads demo_repr) st) = self st.
Proof.
  apply (recv_failure_discards_request demo_loads demo_repr
           (set_client_socket (with_inbox [Ok (jbytes "{'type':"); Raise OSError])
              (demo_state []))
           [jbytes "{'type':"] OSError []); [reflexivity | | reflexivity].
  repeat constructor. discriminate.
Defined.

(** A failing [sendall] is caught inside [_send_response]. *)
Lemma send_response_fails py_repr response st e :
  flat response = true ->
  send_error (client_socket st) = Some e ->
  _send_response py_repr response st = (Ok tt, print_stderr (ErrorSendingResponse e) st).
Proof.
  intros Hflat Hsend. unfold _send_response, sendall. run.
  now rewrite (payload_flat py_repr response Hflat), Hsend.
Qed.

(** X4: when [sendall] raises, for the answer to a request as for the
    reply to text that is not JSON, the exception is logged by
    [_send_response] as an error sending the response, not as an error
    handling the client; nothing is sent, the socket is closed and the
    handler returns normally. *)
Theorem send_failure_is_logged json_loads py_repr st data rest text e :
  read_loop (inbox (client_socket st)) [] = (Ok data, rest) ->
  data <> [] ->
  utf8_decode data = Ok text ->
  send_error (client_socket st) = Some e ->
  (exists msg, json_loads text = Raise (JSONDecodeError msg))
  \/ (exists request response,
        json_loads text = Ok request
        /\ outcome (_handle_request py_repr request)
             (set_client_socket (with_inbox rest) st) = Ok response) ->
  outcome (_handle_client json_loads py_repr) st = Ok tt
  /\ sent (client_socket (final (_handle_client json_loads py_repr) st))
     = sent (client_socket st)
  /\ stderr (final (_handle_client json_loads py_repr) st)
     = stderr st ++ [ErrorSendingResponse e]
  /\ closed (client_socket (final (_handle_client json_loads py_repr) st)) = true.
Proof.
  intros Hread Hdata Hutf Hsend [[msg Hjson] | (request & response & Hjson & Hreq)];
    unfold outcome, final in *.
  - rewrite (handle_client_invalid_json json_loads py_repr st data rest Hread Hdata
               text msg Hutf Hjson).
    unfold final. rewrite (send_response_fails _ _ _ e) by (reflexivity || exact Hsend).
    repeat split.
  - destruct (frame_handle_request py_repr request
                (set_client_socket (with_inbox rest) st)) as (_ & Hsock & Hlog).
    pose proof (handle_request_returns py_repr request
                  (set_client_socket (with_inbox rest) st)) as Hflat.
    unfold outcome, final in *.
    destruct (_handle_request py_repr request _) as [r st2] eqn:Hrun.
    cbn [fst snd] in *. subst r.
    rewrite (handle_client_answered json_loads py_repr st data rest Hread Hdata
               text request response st2 Hutf Hjson Hrun).
    unfold final. rewrite (send_response_fails _ _ _ e);
      [| now apply Hflat | now rewrite Hsock].
    cbn. rewrite Hsock, Hlog. repeat split.
Qed.

Lemma send_failure_is_logged_witness :
  let st := set_client_socket
              (fun s => {| inbox := inbox s; send_error := Some OSError;
                           sent := sent s; closed := closed s |})
              (demo_state [jbytes "{'type':'ping'}"]) in
  outcome (_handle_client demo_loads demo_repr) st = Ok tt
  /\ sent (client_socket (final (_handle_client demo_loads demo_repr) st))
     = sent (client_socket st)
  /\ stderr (final (_handle_client demo_loads demo_repr) st)
     = stderr st ++ [ErrorSendingResponse OSError]
  /\ closed (client_socket (final (_handle_client demo_loads demo_repr) st)) = true.
Proof.
  apply (send_failure_is_logged demo_loads demo_repr
           (set_client_socket
              (fun s => {| inbox := inbox s; send_error := Some OSError;
                           sent := sent s; closed := closed s |})
              (demo_state [jbytes "{'type':'ping'}"]))
           (jbytes "{'type':'ping'}") [] (jlit "{'type':'ping'}") OSError);
    try reflexivity; [discriminate |].
  right. exists (JObj [(lit "type", JStr (lit "ping"))]), (JObj [(lit "pong", JBool true)]).
  split; reflexivity.
Defined.

(** ** The critical section of the weight lookup *)

(** X5: a weight request whose address is a non-empty array or object
    passes validation; with an override it is answered with the override,
    without one the membership test on the address table raises
    [TypeError] inside the critical section, which is left with the lock
    released after that single read. *)
Theorem unhashable_address py_repr fields st :
  has_type fields "weight" ->
  unhashable (field fields (lit "address")) = true ->
  truthy (field fields (lit "address")) = true ->
  truthy (field fields (lit "selection_id")) = true ->
  truthy (field fields (lit "balance_round")) = true ->
  _handle_request py_repr (JObj fields) st
    = match default_weight (self st) with
      | Some weight => (Ok (weight_response weight), st)
      | None =>
          (Raise TypeError,
           record_event Release
             (record_event (Read SharedAddressWeights) (record_event Acquire st)))
      end.
Proof.
  intros Htype Hun Ha Hs Hb.
  rewrite (dispatch_weight py_repr fields st Htype), handle_weight_object.
  rewrite Ha, Hs, Hb. cbn [negb]. unfold resolve_weight, lookup_weight. run.
  destruct (default_weight (self st)); [reflexivity |].
  cbn [self record_event].
  now destruct (field fields (lit "address")).
Qed.

Lemma unhashable_address_witness :
  _handle_request demo_repr
    (JObj (weight_request (JArr [JInt 1]) (JStr (lit "x")) (JStr (lit "5"))))
    (demo_state [])
  = (Raise TypeError,
     record_event Release
       (record_event (Read SharedAddressWeights) (record_event Acquire (demo_state [])))).
Proof.
  apply (unhashable_address demo_repr
           (weight_request (JArr [JInt 1]) (JStr (lit "x")) (JStr (lit "5")))
           (demo_state [])); reflexivity.
Defined.

Ltac section_leaf :=
  eexists; split;
  [ cbn [trace record_event snd]; rewrite <- ?app_assoc; cbn [app];
    try reflexivity; symmetry; apply app_nil_r
  | first
      [ left; reflexivity
      | right; eexists [_]; split; [reflexivity | split; [reflexivity | (assumption || reflexivity)]]
      | right; eexists [_; _]; split; [reflexivity | split; [reflexivity | (assumption || reflexivity)]]
      | right; eexists [_; _; _]; split;
        [reflexivity | split; [reflexivity | (assumption || reflexivity)]] ] ].

(** X6: on every request and on every path, raising ones included,
    [_handle_weight] either touches no shared table or, with no override
    configured, enters the critical section exactly once, only reads
    inside it and releases the lock at its end. *)
Theorem weight_lookup_critical_section py_repr request st :
  exists events,
    trace (final (_handle_weight py_repr request) st) = trace st ++ events
    /\ (events = []
        \/ exists body,
            events = Acquire :: body ++ [Release]
            /\ only_reads body = true
            /\ default_weight (self st) = None).
Proof.
  destruct request; try section_leaf.
  unfold final. rewrite handle_weight_object.
  repeat (destruct (negb _); [section_leaf |]).
  unfold resolve_weight, lookup_weight. run.
  destruct (default_weight (self st)) eqn:Hnone; [section_leaf |].
  cbn [self record_event].
  destruct (table_contains _ (field fields (lit "address"))) as [[|] | e];
    [| | section_leaf].
  - cbn [self record_event].
    destruct (table_getitem _ _) as [w | e]; section_leaf.
  - cbn [self record_event].
    destruct (table_contains _ (JStr _)) as [[|] | e]; [| | section_leaf].
    + cbn [self record_event]. destruct (table_getitem _ _) as [w | e]; section_leaf.
    + destruct (sum_ord _) as [total | e]; section_leaf.
Qed.

(** ** The fallback weight *)

Lemma code_point_sum_permutation (s t : pystr) :
  s ≡ₚ t -> code_point_sum s = code_point_sum t.
Proof.
  unfold code_point_sum. induction 1; cbn; lia.
Qed.

(** X7: when no table knows them, two addresses that are permutations
    of each other get the same weight, and that weight lies between 0 and
    999,999. *)
Theorem fallback_weight_of_anagrams py_repr st address address' selection_id balance_round :
  address ≡ₚ address' ->
  address <> [] ->
  truthy selection_id = true ->
  truthy balance_round = true ->
  default_weight (self st) = None ->
  address_weights (self st) !! address = None ->
  address_weights (self st) !! address' = None ->
  weight_table (self st)
    !! composite_key py_repr (JStr address) selection_id balance_round = None ->
  weight_table (self st)
    !! composite_key py_repr (JStr address') selection_id balance_round = None ->
  exists weight,
    0 <= weight < 1000000
    /\ outcome (_handle_request py_repr
                  (JObj (weight_request (JStr address) selection_id balance_round))) st
       = Ok (weight_response weight)
    /\ outcome (_handle_request py_repr
                  (JObj (weight_request (JStr address') selection_id balance_round))) st
       = Ok (weight_response weight).
Proof.
  intros Hperm Hne Hs Hb Hnone Ha Ha' Hk Hk'.
  assert (Hne' : address' <> []).
  { intros ->. now apply Permutation_nil_r in Hperm. }
  exists (code_point_sum address mod 1000000). split; [apply Z.mod_pos_bound; lia |].
  pose proof (resolve_weight_string_address py_repr) as Hout. unfold outcome in *.
  split.
  - rewrite dispatch_weight by reflexivity. rewrite handle_weight_object.
    change (field (weight_request ?a ?s ?b) (lit "address")) with a.
    change (field (weight_request ?a ?s ?b) (lit "selection_id")) with s.
    change (field (weight_request ?a ?s ?b) (lit "balance_round")) with b.
    rewrite truthy_str, Hs, Hb by assumption. cbn [negb].
    now rewrite Hout, Hnone, Ha, Hk.
  - rewrite dispatch_weight by reflexivity. rewrite handle_weight_object.
    change (field (weight_request ?a ?s ?b) (lit "address")) with a.
    change (field (weight_request ?a ?s ?b) (lit "selection_id")) with s.
    change (field (weight_request ?a ?s ?b) (lit "balance_round")) with b.
    rewrite truthy_str, Hs, Hb by assumption. cbn [negb].
    now rewrite Hout, Hnone, Ha', Hk', (code_point_sum_permutation _ _ Hperm).
Qed.

Lemma fallback_weight_of_anagrams_witness :
  exists weight,
    0 <= weight < 1000000
    /\ outcome (_handle_request demo_repr
                  (JObj (weight_request (JStr (lit "ab")) (JStr (lit "x")) (JStr (lit "5")))))
         (demo_state [])
       = Ok (weight_response weight)
    /\ outcome (_handle_request demo_repr
                  (JObj (weight_request (JStr (lit "ba")) (JStr (lit "x")) (JStr (lit "5")))))
         (demo_state [])
       = Ok (weight_response weight).
Proof.
  apply (fallback_weight_of_anagrams demo_repr (demo_state []) (lit "ab") (lit "ba")
           (JStr (lit "x")) (JStr (lit "5")));
    try reflexivity; [apply perm_swap | discriminate].
Defined.

(** ** The mutators, seen through requests *)

(** The resolution stage returns what [resolved] computes from the
    daemon. *)
Lemma resolve_weight_outcome py_repr address selection_id balance_round st :
  outcome (resolve_weight py_repr address selection_id balance_round) st
    = resolved py_repr (self st) address selection_id balance_round.
Proof.
  unfold resolved, resolve_weight, lookup_weight. run.
  destruct (default_weight (self st)) as [w |]; [reflexivity |].
  cbn [self record_event].
  destruct (table_contains (address_weights (self st)) address) as [[|] | e];
    [| | reflexivity].
  - cbn [self record_event]. now destruct (table_getitem _ _).
  - cbn [table_contains table_getitem self record_event].
    destruct (weight_table (self st) !! _) as [w |] eqn:Hkey.
    + rewrite bool_decide_eq_true_2 by eauto. look. now rewrite Hkey.
    + rewrite bool_decide_eq_false_2 by (intros [? ?]; discriminate).
      now destruct (sum_ord address).
Qed.

Lemma eq_str_has_type fields (type : string) :
  lit type <> [] ->
  eq_str (request_type fields) (lit type) = true -> has_type fields type.
Proof.
  unfold request_type, has_type. intros Hne.
  destruct (assoc (lit "type") fields) as [v |]; cbn.
  - destruct v; cbn; try discriminate. intros H%bool_decide_eq_true. now subst.
  - intros H%bool_decide_eq_true. now destruct Hne.
Qed.

(** What a request is answered depends on the daemon only, and for each
    request type only on the attributes that type reads. *)
Lemma handle_request_agree py_repr request st st' :
  genesis_hash (self st) = genesis_hash (self st') ->
  protocol_version (self st) = protocol_version (self st') ->
  algorithm_version (self st) = algorithm_version (self st') ->
  (forall fields, request = JObj fields -> has_type fields "weight" ->
     resolved py_repr (self st) (field fields (lit "address"))
       (field fields (lit "selection_id")) (field fields (lit "balance_round"))
     = resolved py_repr (self st') (field fields (lit "address"))
         (field fields (lit "selection_id")) (field fields (lit "balance_round"))) ->
  (forall fields, request = JObj fields -> has_type fields "total_weight" ->
     total_weight (self st) = total_weight (self st')) ->
  outcome (_handle_request py_repr request) st
    = outcome (_handle_request py_repr request) st'.
Proof.
  intros Hhash Hprotocol Halgorithm Hweight Htotal.
  destruct request as [| | | | | | fields]; try reflexivity.
  unfold outcome, _handle_request, dict_get. run. fold (request_type fields).
  destruct (eq_str _ (lit "ping")); [reflexivity |].
  destruct (eq_str _ (lit "identity")).
  { unfold _handle_identity. run. rewrite Hhash, Hprotocol, Halgorithm.
    now destruct (decode_ascii _). }
  destruct (eq_str _ (lit "weight")) eqn:Htype.
  { apply eq_str_has_type in Htype; [| discriminate].
    rewrite !handle_weight_object.
    repeat (destruct (negb _); [reflexivity |]).
    pose proof (resolve_weight_outcome py_repr) as Hout. unfold outcome in Hout.
    rewrite !Hout. now apply Hweight. }
  destruct (eq_str _ (lit "total_weight")) eqn:Htype'; [| reflexivity].
  apply eq_str_has_type in Htype'; [| discriminate].
  unfold _handle_total_weight, dict_get. run.
  repeat (destruct (negb _); [reflexivity |]).
  cbn [self record_event]. now rewrite (Htotal fields eq_refl Htype').
Qed.

(** The daemon the mutators leave. *)
Lemma set_weight_self address selection_id balance_round weight st :
  self (final (set_weight address selection_id balance_round weight) st)
    = with_weight_table
        <[address ++ lit ":" ++ selection_id ++ lit ":" ++ balance_round := weight]>
        (self st).
Proof. reflexivity. Qed.

Lemma set_total_weight_self weight st :
  self (final (set_total_weight weight) st) = with_total_weight weight (self st).
Proof. reflexivity. Qed.

(** The answer of the resolution stage when the weight table differs at
    one key only. *)
Lemma resolved_insert py_repr d key weight address selection_id balance_round :
  resolved py_repr (with_weight_table <[key := weight]> d) address selection_id balance_round
    = match default_weight d with
      | Some w => Ok (weight_response w)
      | None =>
          match table_contains (address_weights d) address with
          | Raise e => Raise e
          | Ok true => result_map weight_response (table_getitem (address_weights d) address)
          | Ok false =>
              if bool_decide (composite_key py_repr address selection_id balance_round = key)
              then Ok (weight_response weight)
              else resolved py_repr d address selection_id balance_round
          end
      end.
Proof.
  unfold resolved. cbn [with_weight_table default_weight address_weights weight_table].
  destruct (default_weight d); [reflexivity |].
  destruct (table_contains _ _) as [[|] | e]; try reflexivity.
  case_bool_decide as Hkey.
  - now rewrite Hkey, lookup_insert_eq.
  - now rewrite lookup_insert_ne by congruence.
Qed.

(** X8: after [set_weight], a weight request whose three strings give
    the same composite key is answered with the weight that was set,
    provided no override is configured and the address table does not
    list the queried address.  The triples need not be equal: the key of
    (a:b, c, d) is also the key of (a, b:c, d). *)
Theorem set_weight_then_request py_repr address selection_id balance_round weight
        fields queried queried_id queried_round st :
  has_type fields "weight" ->
  assoc (lit "address") fields = Some (JStr queried) -> queried <> [] ->
  assoc (lit "selection_id") fields = Some (JStr queried_id) -> queried_id <> [] ->
  assoc (lit "balance_round") fields = Some (JStr queried_round) -> queried_round <> [] ->
  queried ++ lit ":" ++ queried_id ++ lit ":" ++ queried_round
    = address ++ lit ":" ++ selection_id ++ lit ":" ++ balance_round ->
  default_weight (self st) = None ->
  address_weights (self st) !! queried = None ->
  outcome (_handle_request py_repr (JObj fields))
    (final (set_weight address selection_id balance_round weight) st)
  = Ok (weight_response weight).
Proof.
  intros Htype Ha Hane Hs Hsne Hb Hbne Hkey Hnone Hunlisted. unfold outcome.
  rewrite (dispatch_weight py_repr fields _ Htype), handle_weight_object.
  rewrite (field_present _ _ _ Ha), (field_present _ _ _ Hs), (field_present _ _ _ Hb).
  rewrite !truthy_str by assumption. cbn [negb].
  pose proof (resolve_weight_outcome py_repr) as Hout. unfold outcome in Hout.
  rewrite Hout, set_weight_self, resolved_insert, Hnone.
  cbn [table_contains]. rewrite Hunlisted.
  rewrite bool_decide_eq_false_2 by (intros [? ?]; discriminate).
  now rewrite bool_decide_eq_true_2 by exact Hkey.
Qed.

Lemma set_weight_then_request_witness :
  outcome (_handle_request demo_repr
             (JObj (weight_request (JStr (lit "a")) (JStr (lit "b:c")) (JStr (lit "d")))))
    (final (set_weight (lit "a:b") (lit "c") (lit "d") 5) (demo_state []))
  = Ok (weight_response 5).
Proof.
  apply (set_weight_then_request demo_repr (lit "a:b") (lit "c") (lit "d") 5
           (weight_request (JStr (lit "a")) (JStr (lit "b:c")) (JStr (lit "d")))
           (lit "a") (lit "b:c") (lit "d") (demo_state []));
    try reflexivity; discriminate.
Defined.

(** X9: [set_weight] changes the answer to no request other than weight
    requests whose composite key is the key it wrote: every other JSON
    value gets the same outcome, response or exception, as before. *)
Theorem set_weight_is_local py_repr address selection_id balance_round weight request st :
  (forall fields,
      request = JObj fields -> has_type fields "weight" ->
      composite_key py_repr (field fields (lit "address"))
        (field fields (lit "selection_id")) (field fields (lit "balance_round"))
      <> address ++ lit ":" ++ selection_id ++ lit ":" ++ balance_round) ->
  outcome (_handle_request py_repr request)
    (final (set_weight address selection_id balance_round weight) st)
  = outcome (_handle_request py_repr request) st.
Proof.
  intros Hother. apply handle_request_agree; try reflexivity.
  intros fields Hrequest Htype. rewrite set_weight_self, resolved_insert.
  rewrite bool_decide_eq_false_2 by now apply Hother.
  unfold resolved. destruct (default_weight (self st)); [reflexivity |].
  now destruct (table_contains _ _) as [[|] | e].
Qed.

Lemma set_weight_is_local_witness :
  outcome (_handle_request demo_repr
             (JObj (weight_request (JStr (lit "B2")) (JStr (lit "x")) (JStr (lit "5")))))
    (final (set_weight (lit "B2") (lit "x") (lit "6") 42) (demo_state []))
  = outcome (_handle_request demo_repr
               (JObj (weight_request (JStr (lit "B2")) (JStr (lit "x")) (JStr (lit "5")))))
      (demo_state []).
Proof.
  apply (set_weight_is_local demo_repr (lit "B2") (lit "x") (lit "6") 42).
  intros fields [= <-] _. vm_compute. discriminate.
Defined.

(** A string cut at its first colon. *)
Lemma key_split (a a' rest rest' : pystr) :
  colon_free a = true -> colon_free a' = true ->
  a ++ colon :: rest = a' ++ colon :: rest' -> a = a' /\ rest = rest'.
Proof.
  revert a'. induction a as [| c a IH]; intros [| c' a'] Ha Ha' Heq; cbn in *.
  - now injection Heq.
  - injection Heq as <- _. apply andb_true_iff in Ha' as [Hc _].
    now rewrite N.eqb_refl in Hc.
  - injection Heq as -> _. apply andb_true_iff in Ha as [Hc _].
    now rewrite N.eqb_refl in Hc.
  - injection Heq as -> Heq. apply andb_true_iff in Ha as [_ Ha].
    apply andb_true_iff in Ha' as [_ Ha'].
    destruct (IH a' Ha Ha' Heq) as [-> ->]. now split.
Qed.

(** X10: two triples whose addresses and selection ids hold no colon
    have the same composite key only if they are equal; the balance round
    may hold colons. *)
Theorem composite_key_injective py_repr address selection_id balance_round
        address' selection_id' balance_round' :
  colon_free address = true -> colon_free selection_id = true ->
  colon_free address' = true -> colon_free selection_id' = true ->
  composite_key py_repr (JStr address) (JStr selection_id) (JStr balance_round)
    = composite_key py_repr (JStr address') (JStr selection_id') (JStr balance_round') ->
  address = address' /\ selection_id = selection_id' /\ balance_round = balance_round'.
Proof.
  intros Ha Hs Ha' Hs'. unfold composite_key. cbn [py_str].
  change (lit ":") with [colon]. cbn [app]. intros Hkey.
  apply key_split in Hkey as [-> Hkey]; [| assumption ..].
  apply key_split in Hkey as [-> ->]; [| assumption ..].
  now repeat split.
Qed.

Lemma composite_key_injective_witness :
  lit "A1" = lit "A1" /\ lit "x" = lit "x" /\ lit "5" = lit "5".
Proof.
  apply (composite_key_injective demo_repr (lit "A1") (lit "x") (lit "5")
           (lit "A1") (lit "x") (lit "5")); reflexivity.
Defined.

(** X11: with an override configured, or for an address the address
    table lists, [set_weight] changes the answer to no request. *)
Theorem set_weight_shadowed py_repr address selection_id balance_round weight fields st :
  is_Some (default_weight (self st))
  \/ (exists queried, field fields (lit "address") = JStr queried
                      /\ is_Some (address_weights (self st) !! queried)) ->
  outcome (_handle_request py_repr (JObj fields))
    (final (set_weight address selection_id balance_round weight) st)
  = outcome (_handle_request py_repr (JObj fields)) st.
Proof.
  intros Hshadow. apply handle_request_agree; try reflexivity.
  intros fields' [= <-] Htype. rewrite set_weight_self, resolved_insert.
  unfold resolved.
  destruct Hshadow as [[w ->] | (queried & -> & Hlisted)]; [reflexivity |].
  destruct (default_weight (self st)); [reflexivity |].
  cbn [table_contains]. now rewrite bool_decide_eq_true_2.
Qed.

Lemma set_weight_shadowed_witness :
  outcome (_handle_request demo_repr
             (JObj (weight_request (JStr (lit "A1")) (JStr (lit "x")) (JStr (lit "5")))))
    (final (set_weight (lit "A1") (lit "x") (lit "5") 42) (demo_state []))
  = outcome (_handle_request demo_repr
               (JObj (weight_request (JStr (lit "A1")) (JStr (lit "x")) (JStr (lit "5")))))
      (demo_state []).
Proof.
  apply (set_weight_shadowed demo_repr (lit "A1") (lit "x") (lit "5") 42).
  right. exists (lit "A1"). split; [reflexivity |]. vm_compute. eauto.
Defined.

(** X12: after [set_total_weight] a total_weight request with both
    fields present reports the new total, and every request that is not of
    type total_weight gets the same outcome as before. *)
Theorem set_total_weight_only_total py_repr weight st :
  (forall request,
      (forall fields, request = JObj fields -> ~ has_type fields "total_weight") ->
      outcome (_handle_request py_repr request) (final (set_total_weight weight) st)
      = outcome (_handle_request py_repr request) st)
  /\ (forall fields,
        has_type fields "total_weight" ->
        truthy (field fields (lit "balance_round")) = true ->
        truthy (field fields (lit "vote_round")) = true ->
        outcome (_handle_request py_repr (JObj fields)) (final (set_total_weight weight) st)
        = Ok (total_weight_response weight)).
Proof.
  split.
  - intros request Hother. apply handle_request_agree; try reflexivity.
    intros fields Hrequest Htype. now destruct (Hother fields Hrequest).
  - intros fields Htype Hb Hv. unfold outcome.
    rewrite (dispatch_total_weight py_repr fields _ Htype).
    unfold _handle_total_weight, dict_get. fold (field fields (lit "balance_round")).
    fold (field fields (lit "vote_round")). run. now rewrite Hb, Hv.
Qed.

Lemma set_total_weight_only_total_witness :
  outcome (_handle_request demo_repr
             (JObj (total_weight_request (JStr (lit "1")) (JStr (lit "2")))))
    (final (set_total_weight 5500000) (demo_state []))
  = Ok (total_weight_response 5500000)
  /\ outcome (_handle_request demo_repr (JObj [(lit "type", JStr (lit "identity"))]))
       (final (set_total_weight 5500000) (demo_state []))
     = outcome (_handle_request demo_repr (JObj [(lit "type", JStr (lit "identity"))]))
         (demo_state []).
Proof.
  destruct (set_total_weight_only_total demo_repr 5500000 (demo_state []))
    as [Hother Htotal].
  split.
  - apply (Htotal (total_weight_request (JStr (lit "1")) (JStr (lit "2"))));
      reflexivity.
  - apply Hother. intros fields [= <-]. vm_compute. discriminate.
Defined.

(** X13: of two calls of [set_weight] with the same composite key the
    last one wins; calls with different keys commute; [set_weight] and
    [set_total_weight] commute. *)
Theorem mutators_compose address selection_id balance_round weight
        address' selection_id' balance_round' weight' total st :
  let key := address ++ lit ":" ++ selection_id ++ lit ":" ++ balance_round in
  let key' := address' ++ lit ":" ++ selection_id' ++ lit ":" ++ balance_round' in
  let set := set_weight address selection_id balance_round weight in
  let set' := set_weight address' selection_id' balance_round' weight' in
  (key = key' -> self (final (set;; set') st) = self (final set' st))
  /\ (key <> key' -> self (final (set;; set') st) = self (final (set';; set) st))
  /\ self (final (set;; set_total_weight total) st)
     = self (final (set_total_weight total;; set) st).
Proof.
  intros key key' set set'. subst set set'. split; [| split].
  - intros Hkey. unfold set_weight. fold key key'. rewrite Hkey. run.
    cbn [self set_self record_event]. unfold with_weight_table. cbn.
    now rewrite insert_insert_eq.
  - intros Hkey. unfold set_weight. fold key key'. run.
    cbn [self set_self record_event]. unfold with_weight_table. cbn.
    now rewrite insert_insert_ne.
  - reflexivity.
Qed.

Lemma mutators_compose_witness :
  self (final (set_weight (lit "a:b") (lit "c") (lit "d") 1;;
               set_weight (lit "a") (lit "b:c") (lit "d") 2) (demo_state []))
  = self (final (set_weight (lit "a") (lit "b:c") (lit "d") 2) (demo_state []))
  /\ self (final (set_weight (lit "a") (lit "x") (lit "1") 1;;
                  set_weight (lit "b") (lit "x") (lit "1") 2) (demo_state []))
     = self (final (set_weight (lit "b") (lit "x") (lit "1") 2;;
                    set_weight (lit "a") (lit "x") (lit "1") 1) (demo_state [])).
Proof.
  split.
  - apply (mutators_compose (lit "a:b") (lit "c") (lit "d") 1
             (lit "a") (lit "b:c") (lit "d") 2 0 (demo_state [])). reflexivity.
  - apply (mutators_compose (lit "a") (lit "x") (lit "1") 1
             (lit "b") (lit "x") (lit "1") 2 0 (demo_state [])). vm_compute. discriminate.
Defined.

(** ** A daemon built with defaults *)

(** X14: a daemon constructed without override and with its tables left
    out or empty reports the versions and the total it was given, 1.0 and
    1,000,000 when they are left out, and answers every weight request for
    a string address with the code-point sum modulo 1,000,000. *)
Theorem default_daemon_answers py_repr st hash protocol algorithm table total addresses :
  self st = __init__ hash protocol algorithm table total None addresses ->
  default ∅ table = ∅ ->
  default ∅ addresses = ∅ ->
  (forall fields,
      has_type fields "identity" ->
      outcome (_handle_request py_repr (JObj fields)) st
      = Ok (JObj [(lit "genesis_hash", JStr (Byte.to_N <$> b64encode hash));
                  (lit "protocol_version", JStr (default (lit "1.0") protocol));
                  (lit "algorithm_version", JStr (default (lit "1.0") algorithm))]))
  /\ (forall fields address,
        has_type fields "weight" ->
        assoc (lit "address") fields = Some (JStr address) -> address <> [] ->
        truthy (field fields (lit "selection_id")) = true ->
        truthy (field fields (lit "balance_round")) = true ->
        outcome (_handle_request py_repr (JObj fields)) st
        = Ok (weight_response (code_point_sum address mod 1000000)))
  /\ (forall fields,
        has_type fields "total_weight" ->
        truthy (field fields (lit "balance_round")) = true ->
        truthy (field fields (lit "vote_round")) = true ->
        outcome (_handle_request py_repr (JObj fields)) st
        = Ok (total_weight_response (default 1000000 total))).
Proof.
  intros Hself Htable Haddresses. split; [| split].
  - intros fields Htype. unfold outcome.
    rewrite (dispatch_identity py_repr fields st Htype).
    unfold _handle_identity. run. rewrite Hself. cbn [__init__ genesis_hash
      protocol_version algorithm_version]. now rewrite decode_ascii_b64encode.
  - intros fields address Htype Ha Hne Hs Hb. unfold outcome.
    rewrite (dispatch_weight py_repr fields st Htype), handle_weight_object.
    rewrite (field_present _ _ _ Ha), Hs, Hb, truthy_str by assumption. cbn [negb].
    pose proof (resolve_weight_string_address py_repr) as Hout. unfold outcome in Hout.
    rewrite Hout, Hself.
    cbn [__init__ default_weight address_weights weight_table].
    now rewrite Htable, Haddresses, !lookup_empty.
  - intros fields Htype Hb Hv. unfold outcome.
    rewrite (dispatch_total_weight py_repr fields st Htype).
    unfold _handle_total_weight, dict_get. fold (field fields (lit "balance_round")).
    fold (field fields (lit "vote_round")). run. rewrite Hb, Hv. cbn [negb self record_event].
    now rewrite Hself.
Qed.

Lemma default_daemon_answers_witness :
  outcome (_handle_request demo_repr
             (JObj (weight_request (JStr (lit "ZZ")) (JStr (lit "x")) (JStr (lit "5")))))
    {| self := __init__ (blit "0123456789abcdef0123456789abcdef") None None (Some ∅)
                 None None None;
       client_socket := client_socket (demo_state []); stderr := []; trace := [] |}
  = Ok (weight_response (code_point_sum (lit "ZZ") mod 1000000)).
Proof.
  destruct (default_daemon_answers demo_repr
              {| self := __init__ (blit "0123456789abcdef0123456789abcdef") None None
                           (Some ∅) None None None;
                 client_socket := client_socket (demo_state []);
                 stderr := []; trace := [] |}
              (blit "0123456789abcdef0123456789abcdef") None None (Some ∅) None None
              eq_refl eq_refl eq_refl) as (_ & Hweight & _).
  apply Hweight; try reflexivity. discriminate.
Defined.

(** ** Text after the base64 padding *)

Lemma length_mod3_step {A} (a b c : A) (s : list A) :
  (length (a :: b :: c :: s) mod 3 = length s mod 3)%nat.
Proof.
  cbn [length]. replace (S (S (S (length s)))) with (length s + 1 * 3)%nat by lia.
  apply Nat.Div0.mod_add.
Qed.

(** Once a group is completed by padding, the library decoder stops
    reading. *)
Lemma a2b_base64_trailer (s trailer : bytes) :
  (length s mod 3 <> 0)%nat -> a2b_base64 0 0 0 (b64encode s ++ trailer) = Some s.
Proof.
  induction s as [| a | a b | a b c s IH] using list_ind3; intros Hlen.
  - now destruct Hlen.
  - pose proof (Byte.to_N_bounded a) as Ha.
    cbn [b64encode a2b_base64 app].
    rewrite !b64_char_not_pad, !b64_index_char by divlia. cbn [N.eqb Pos.eqb].
    change (is_pad (Byte.to_N b64_pad)) with true. cbn.
    replace (_ + _)%N with (Byte.to_N a) by divlia.
    now rewrite byte_of_N_to_N.
  - pose proof (Byte.to_N_bounded a) as Ha. pose proof (Byte.to_N_bounded b) as Hb.
    cbn [b64encode a2b_base64 app].
    rewrite !b64_char_not_pad, !b64_index_char by divlia. cbn [N.eqb Pos.eqb].
    change (is_pad (Byte.to_N b64_pad)) with true. cbn.
    replace (_ / 4 * 4 + _)%N with (Byte.to_N a) by divlia.
    replace (_ * 16 + _)%N with (Byte.to_N b) by divlia.
    now rewrite !byte_of_N_to_N.
  - pose proof (Byte.to_N_bounded a) as Ha. pose proof (Byte.to_N_bounded b) as Hb.
    pose proof (Byte.to_N_bounded c) as Hc.
    rewrite length_mod3_step in Hlen.
    cbn [b64encode a2b_base64 app].
    rewrite !b64_char_not_pad, !b64_index_char by divlia. cbn [N.eqb Pos.eqb].
    rewrite (IH Hlen). cbn [fmap option_fmap option_map].
    replace (_ / 4 * 4 + _)%N with (Byte.to_N a) by divlia.
    replace (_ * 16 + _)%N with (Byte.to_N b) by divlia.
    replace (_ * 64 + _)%N with (Byte.to_N c) by divlia.
    now rewrite !byte_of_N_to_N.
Qed.

Lemma b64encode_has_pad (s : bytes) :
  (length s mod 3 <> 0)%nat -> In b64_pad (b64encode s).
Proof.
  induction s as [| a | a b | a b c s IH] using list_ind3; intros Hlen.
  - now destruct Hlen.
  - cbn. tauto.
  - cbn. tauto.
  - rewrite length_mod3_step in Hlen. cbn [b64encode]. do 4 right. exact (IH Hlen).
Qed.

(** [bytes.fromhex] rejects a string that holds a character which is
    neither a digit nor whitespace. *)
Lemma fromhex_rejects (s : pystr) (c : N) :
  In c s -> is_space c = false -> hex_value c = None -> fromhex s = None.
Proof.
  intros Hin Hspace Hdigit.
  assert (Hall : forall n (t : pystr), (length t <= n)%nat -> In c t -> fromhex t = None).
  { clear Hin s. induction n as [| n IH]; intros s Hlen Hin.
    - destruct s; [contradiction | cbn in Hlen; lia].
    - destruct s as [| c0 s]; [contradiction |]. cbn [fromhex]. cbn [length] in Hlen.
      destruct Hin as [-> | Hin].
      + rewrite Hspace, Hdigit. reflexivity.
      + destruct (is_space c0); [apply IH; [lia | exact Hin] |].
        destruct (hex_value c0); [| reflexivity].
        destruct s as [| d s]; [reflexivity |].
        destruct Hin as [-> | Hin]; [now rewrite Hdigit |].
        destruct (hex_value d); [| reflexivity].
        rewrite IH; [reflexivity | cbn [length] in Hlen; lia | exact Hin]. }
  apply (Hall (length s)); [lia | exact Hin].
Qed.

Lemma encode_ascii_app (s t : pystr) :
  encode_ascii (s ++ t)
    = match encode_ascii s, encode_ascii t with
      | Some a, Some b => Some (a ++ b)
      | _, _ => None
      end.
Proof.
  induction s as [| cp s IH]; cbn [app encode_ascii].
  - now destruct (encode_ascii t).
  - destruct (cp <? 128)%N; [| reflexivity]. rewrite IH.
    destruct (encode_ascii s); [| reflexivity]. now destruct (encode_ascii t).
Qed.

Lemma encode_ascii_is_ascii (s : pystr) :
  encode_ascii s = if is_ascii s then Some (byte_of_N <$> s) else None.
Proof.
  induction s as [| cp s IH]; [reflexivity |]. cbn [encode_ascii is_ascii forallb].
  destruct (cp <? 128)%N; [| reflexivity]. rewrite IH. cbn [andb].
  fold (is_ascii s). now destruct (is_ascii s).
Qed.

(** X18: [parse_genesis_hash] accepts the base64 text of a 32-byte hash
    followed by any ASCII text, which the decoder does not read past the
    padding, and yields the hash; followed by text that is not ASCII it is
    rejected. *)
Theorem parse_genesis_hash_ignores_trailer (h : bytes) (trailer : pystr) :
  length h = 32%nat ->
  parse_genesis_hash ((Byte.to_N <$> b64encode h) ++ trailer)
    = if is_ascii trailer then Some h else None.
Proof.
  intros Hlen.
  assert (Hmod : (length h mod 3 <> 0)%nat) by now rewrite Hlen.
  assert (Hhex : fromhex ((Byte.to_N <$> b64encode h) ++ trailer) = None).
  { apply (fromhex_rejects _ (Byte.to_N b64_pad)); [| reflexivity ..].
    apply in_or_app. left. apply in_map. now apply b64encode_has_pad. }
  unfold parse_genesis_hash, base64_b64decode. rewrite Hhex.
  rewrite encode_ascii_app, encode_ascii_b64encode, encode_ascii_is_ascii.
  destruct (is_ascii trailer).
  - cbn [mbind option_bind]. rewrite (a2b_base64_trailer _ _ Hmod), Hlen.
    now destruct (_ =? 64)%nat.
  - cbn [mbind option_bind]. now destruct (_ =? 64)%nat.
Qed.

Lemma parse_genesis_hash_ignores_trailer_witness :
  parse_genesis_hash
    ((Byte.to_N <$> b64encode (genesis_hash demo_daemon)) ++ lit "= and so on")
  = Some (genesis_hash demo_daemon).
Proof.
  apply (parse_genesis_hash_ignores_trailer (genesis_hash demo_daemon) (lit "= and so on")).
  reflexivity.
Defined.
